(** * NachOS file system: the orchestration layer of [filesys.cc]

    A shallow embedding of [src/code/filesys/filesys.cc] (class
    [FileSystem]) and the properties of its operations: [Create], [Open],
    [Remove], [Read], [Write], [Seek], [Close], the descriptor scan
    [GetSysFd] and the path resolver [GoDirectory].

    The classes [Directory], [FileHeader], [PersistentBitmap], [OpenFile]
    and the disk live in other files of the repository.  Their in-memory
    behaviour is modelled from the specification; everything that touches
    the disk is kept abstract in the class [Collaborators], so that the
    theorems on the orchestration layer hold for every implementation of
    the collaborators. *)

From Stdlib Require Import ZArith List String Ascii Bool Lia.
From stdpp Require Import base gmap strings list.

Local Open Scope Z_scope.

(** ** In-memory structures of the collaborating classes *)

(** Modelled from the spec: the file header record of [filehdr.h]
    (byte length, and the ordered sector numbers holding the data). *)
Record FileHeader := mkFileHeader {
  numBytes : Z;
  numSectors : Z;
  dataSectors : list Z
}.

(** Modelled from the spec: one entry of the directory table of
    [directory.h] (in-use flag, header sector, name). *)
Record DirectoryEntry := mkDirectoryEntry {
  inUse : bool;
  sector : Z;
  name : string
}.

(** Modelled from the spec: a directory is a fixed-capacity table of
    entries. *)
Definition Directory := list DirectoryEntry.

(** Modelled from the spec: the free-sector bitmap of [pbitmap.h], one
    boolean per sector, [true] meaning allocated. *)
Definition Bitmap := list bool.

(** [#define NumDirEntries 10] (filesys.cc, line 66). *)
Definition NumDirEntries : nat := 10.

(** [#define FreeMapSector 0] and [#define DirectorySector 1]. *)
Definition FreeMapSector : Z := 0.
Definition DirectorySector : Z := 1.

(** Modelled from the spec: [Directory::Directory(size)] builds a table
    whose entries are all not in use. *)
Definition new_Directory (size : nat) : Directory :=
  replicate size (mkDirectoryEntry false 0 EmptyString).

(** Modelled from the spec: the index of the first in-use entry whose
    name matches exactly.  (Equal names agree on the trailing separator,
    so the "is sub-directory" flags of the query and of a match agree.) *)
Fixpoint Directory_FindIndex (nm : string) (table : Directory) (i : nat)
  : option nat :=
  match table with
  | [] => None
  | e :: rest =>
      if inUse e && String.eqb (name e) nm then Some i
      else Directory_FindIndex nm rest (S i)
  end.

(** Modelled from the spec: [Directory::Find] returns the header sector
    of the match, or -1. *)
Definition Directory_Find (nm : string) (table : Directory) : Z :=
  match Directory_FindIndex nm table 0 with
  | Some i => match table !! i with Some e => sector e | None => -1 end
  | None => -1
  end.

(** The first slot that is not in use. *)
Fixpoint Directory_FreeIndex (table : Directory) (i : nat) : option nat :=
  match table with
  | [] => None
  | e :: rest => if inUse e then Directory_FreeIndex rest (S i) else Some i
  end.

(** Modelled from the spec: [Directory::Add] fails when the name is
    present or no slot is free, and otherwise occupies the first free
    slot. *)
Definition Directory_Add (nm : string) (newSector : Z) (table : Directory)
  : option Directory :=
  match Directory_FindIndex nm table 0 with
  | Some _ => None
  | None =>
      match Directory_FreeIndex table 0 with
      | Some i => Some (<[i := mkDirectoryEntry true newSector nm]> table)
      | None => None
      end
  end.

(** Modelled from the spec: [Directory::Remove] marks the matching entry
    not in use and fails when there is no match. *)
Definition Directory_Remove (nm : string) (table : Directory)
  : option Directory :=
  match Directory_FindIndex nm table 0 with
  | Some i =>
      match table !! i with
      | Some e => Some (<[i := mkDirectoryEntry false (sector e) (name e)]> table)
      | None => None
      end
  | None => None
  end.

(** Modelled from the spec: [Bitmap::Test], [Bitmap::Mark] and
    [Bitmap::Clear]; a sector number outside the map is left alone. *)
Definition Bitmap_Test (which : Z) (b : Bitmap) : bool :=
  if (0 <=? which) then
    match b !! Z.to_nat which with Some x => x | None => false end
  else false.

Definition Bitmap_Mark (which : Z) (b : Bitmap) : Bitmap :=
  if (0 <=? which) then <[Z.to_nat which := true]> b else b.

Definition Bitmap_Clear (which : Z) (b : Bitmap) : Bitmap :=
  if (0 <=? which) then <[Z.to_nat which := false]> b else b.

(** The lowest-numbered clear bit at or after position [i]. *)
Fixpoint Bitmap_FindClear (b : Bitmap) (i : Z) : option Z :=
  match b with
  | [] => None
  | x :: rest => if x then Bitmap_FindClear rest (i + 1) else Some i
  end.

(** Modelled from the spec: [Bitmap::FindAndSet] returns the lowest clear
    sector and marks it, or returns -1 when the device is full. *)
Definition Bitmap_FindAndSet (b : Bitmap) : Z * Bitmap :=
  match Bitmap_FindClear b 0 with
  | Some i => (i, Bitmap_Mark i b)
  | None => (-1, b)
  end.

(** Claims [n] sectors one after the other; the bitmap keeps the sectors
    claimed before a failure. *)
Fixpoint claimSectors (n : nat) (b : Bitmap) : option (list Z) * Bitmap :=
  match n with
  | O => (Some [], b)
  | S n' =>
      let '(s, b1) := Bitmap_FindAndSet b in
      if s =? -1 then (None, b1)
      else
        match claimSectors n' b1 with
        | (Some l, b2) => (Some (s :: l), b2)
        | (None, b2) => (None, b2)
        end
  end.

(** [divRoundUp] of the Nachos utility header. *)
Definition divRoundUp (n s : Z) : Z := (n + (s - 1)) / s.

(** Modelled from the spec: [FileHeader::Allocate] claims
    [ceil(size / sectorSize)] sectors by repeated [FindAndSet] and fails
    when one of them returns "none". *)
Definition FileHeader_Allocate (sectorSize : Z) (freeMap : Bitmap) (fileSize : Z)
  : option FileHeader * Bitmap :=
  let n := divRoundUp fileSize sectorSize in
  match claimSectors (Z.to_nat n) freeMap with
  | (Some l, b) => (Some (mkFileHeader fileSize n l), b)
  | (None, b) => (None, b)
  end.

(** Modelled from the spec: [FileHeader::Deallocate] clears every data
    sector of the header, and not the header's own sector. *)
Definition FileHeader_Deallocate (hdr : FileHeader) (freeMap : Bitmap) : Bitmap :=
  fold_left (fun b s => Bitmap_Clear s b) (dataSectors hdr) freeMap.

(** ** Open-file handles *)

(** Modelled from the spec: an [OpenFile] object is built from a header
    sector, caches the header found there, and carries a seek position
    and a descriptor tag. *)
Record OpenFile := mkOpenFile {
  of_sector : Z;
  of_hdr : FileHeader;
  of_seek : Z;
  of_fd : Z
}.

(** A pointer [OpenFile*]: [None] is [NULL], [Some a] an address. *)
Definition ptr := option nat.
Definition NULL : ptr := None.

(** ** The collaborators that touch the disk *)

(** The constants of [disk.h] and [filesys.h], the disk, and the methods
    of the collaborating classes that read or write it.  None of them is
    defined in [filesys.cc]; the orchestration layer is verified for all
    of them. *)
Class Collaborators := {
  SectorSize : Z;
  NumSectors : nat;
  SYS_MAX_OPEN_FILE_NUM : Z;
  Disk : Type;
  FileHeader_FetchFrom : Z -> Disk -> FileHeader;
  FileHeader_WriteBack : FileHeader -> Z -> Disk -> Disk;
  Directory_FetchFrom : OpenFile -> Disk -> Directory;
  Directory_WriteBack : Directory -> OpenFile -> Disk -> Disk;
  Bitmap_FetchFrom : OpenFile -> nat -> Disk -> Bitmap;
  Bitmap_WriteBack : Bitmap -> OpenFile -> Disk -> Disk;
  Directory_RecRemove : Directory -> Bitmap -> Disk -> bool * Directory * Bitmap;
  OpenFile_Read : OpenFile -> Z -> Disk -> Z * list Z * OpenFile;
  OpenFile_Write : OpenFile -> list Z -> Z -> Disk -> Z * OpenFile * Disk
}.

(** The calls made to the collaborators, in the order they are made. *)
Inductive Event :=
  | EvHdrFetch (sec : Z)
  | EvHdrWrite (hdr : FileHeader) (sec : Z)
  | EvDirFetch (f : OpenFile)
  | EvDirWrite (d : Directory) (f : OpenFile)
  | EvMapFetch (f : OpenFile)
  | EvMapWrite (b : Bitmap) (f : OpenFile)
  | EvRecRemove (d : Directory) (b : Bitmap)
  | EvFileRead (f : OpenFile) (size : Z)
  | EvFileWrite (f : OpenFile) (buf : list Z) (size : Z).

(** The events that store something on the disk. *)
Definition is_write (e : Event) : bool :=
  match e with
  | EvHdrWrite _ _ | EvDirWrite _ _ | EvMapWrite _ _ | EvFileWrite _ _ _ => true
  | _ => false
  end.

(** The events that load the bitmap. *)
Definition is_map_fetch (e : Event) : bool :=
  match e with EvMapFetch _ => true | _ => false end.

(** A string handed around as [char*]: [Freed] once [delete []] ran. *)
Inductive cstr :=
  | Live (s : string)
  | Freed.

(** ** The file system object and its operations *)

Section FileSys.
Context `{C : Collaborators}.

(** The members of [FileSystem] ([freeMapFile], [directoryFile], the
    system-wide table [sysOpFileTable] of type [std::map<int,OpenFile*>]
    and the cursor [fdPosition]), the [OpenFile] objects alive on the C++
    heap, the disk, and the trace of collaborator calls. *)
Record FileSystem := mkFileSystem {
  disk : Disk;
  heap : gmap nat OpenFile;
  freeMapFile : ptr;
  directoryFile : ptr;
  sysOpFileTable : gmap Z ptr;
  fdPosition : Z;
  log : list Event
}.

Definition set_disk (d : Disk) (s : FileSystem) : FileSystem :=
  mkFileSystem d (heap s) (freeMapFile s) (directoryFile s)
               (sysOpFileTable s) (fdPosition s) (log s).

Definition set_heap (h : gmap nat OpenFile) (s : FileSystem) : FileSystem :=
  mkFileSystem (disk s) h (freeMapFile s) (directoryFile s)
               (sysOpFileTable s) (fdPosition s) (log s).

Definition set_table (t : gmap Z ptr) (s : FileSystem) : FileSystem :=
  mkFileSystem (disk s) (heap s) (freeMapFile s) (directoryFile s)
               t (fdPosition s) (log s).

Definition set_fdPosition (p : Z) (s : FileSystem) : FileSystem :=
  mkFileSystem (disk s) (heap s) (freeMapFile s) (directoryFile s)
               (sysOpFileTable s) p (log s).

Definition add_log (e : Event) (s : FileSystem) : FileSystem :=
  mkFileSystem (disk s) (heap s) (freeMapFile s) (directoryFile s)
               (sysOpFileTable s) (fdPosition s) (log s ++ [e]).

(** How a call ends: it returns, an [ASSERT] stops the machine, or it
    dereferences a pointer that is [NULL] or already deleted. *)
Inductive outcome (A : Type) :=
  | Done (a : A) (s : FileSystem)
  | AssertFailed
  | Fault.
Arguments Done {A} a s.
Arguments AssertFailed {A}.
Arguments Fault {A}.

Definition M (A : Type) := FileSystem -> outcome A.

#[global] Instance M_ret : MRet M := fun A a s => Done a s.

#[global] Instance M_bind : MBind M :=
  fun A B k c s =>
    match c s with
    | Done a s' => k a s'
    | AssertFailed => AssertFailed
    | Fault => Fault
    end.

Definition ret {A} (a : A) : M A := mret a.

Definition ASSERT (b : bool) : M unit :=
  fun s => if b then Done tt s else AssertFailed.

(** The object a pointer refers to, if it is alive. *)
Definition target (p : ptr) (s : FileSystem) : option OpenFile :=
  match p with
  | Some a => heap s !! a
  | None => None
  end.

(** [new OpenFile(sector)]: the constructor reads the header. *)
Definition new_OpenFile (sec : Z) : M ptr :=
  fun s =>
    let a := fresh (dom (heap s)) in
    let f := mkOpenFile sec (FileHeader_FetchFrom sec (disk s)) 0 (-1) in
    Done (Some a) (add_log (EvHdrFetch sec) (set_heap (<[a := f]> (heap s)) s)).

(** [delete p] for an [OpenFile*]; deleting [NULL] does nothing. *)
Definition delete_OpenFile (p : ptr) : M unit :=
  fun s =>
    match p with
    | None => Done tt s
    | Some a =>
        match heap s !! a with
        | Some _ => Done tt (set_heap (delete a (heap s)) s)
        | None => Fault
        end
    end.

(** [directory->FetchFrom(file)] on a fresh [Directory(NumDirEntries)]. *)
Definition Directory_fetch (file : ptr) : M Directory :=
  fun s =>
    match target file s with
    | Some f => Done (Directory_FetchFrom f (disk s)) (add_log (EvDirFetch f) s)
    | None => Fault
    end.

(** [directory->WriteBack(file)]. *)
Definition Directory_write (d : Directory) (file : ptr) : M unit :=
  fun s =>
    match target file s with
    | Some f =>
        Done tt (add_log (EvDirWrite d f) (set_disk (Directory_WriteBack d f (disk s)) s))
    | None => Fault
    end.

(** [new PersistentBitmap(file, NumSectors)]: built from its file. *)
Definition Bitmap_fetch (file : ptr) : M Bitmap :=
  fun s =>
    match target file s with
    | Some f => Done (Bitmap_FetchFrom f NumSectors (disk s)) (add_log (EvMapFetch f) s)
    | None => Fault
    end.

(** [freeMap->WriteBack(file)]. *)
Definition Bitmap_write (b : Bitmap) (file : ptr) : M unit :=
  fun s =>
    match target file s with
    | Some f =>
        Done tt (add_log (EvMapWrite b f) (set_disk (Bitmap_WriteBack b f (disk s)) s))
    | None => Fault
    end.

(** [hdr->FetchFrom(sector)] and [hdr->WriteBack(sector)]. *)
Definition FileHeader_fetch (sec : Z) : M FileHeader :=
  fun s => Done (FileHeader_FetchFrom sec (disk s)) (add_log (EvHdrFetch sec) s).

Definition FileHeader_write (hdr : FileHeader) (sec : Z) : M unit :=
  fun s =>
    Done tt (add_log (EvHdrWrite hdr sec) (set_disk (FileHeader_WriteBack hdr sec (disk s)) s)).

(** [subDir->RecRemove(freeMap)]. *)
Definition RecRemove (d : Directory) (b : Bitmap) : M (bool * Directory * Bitmap) :=
  fun s => Done (Directory_RecRemove d b (disk s)) (add_log (EvRecRemove d b) s).

(** Using a [char*]: reading a deleted string is a fault. *)
Definition use (n : cstr) : M string :=
  fun s => match n with Live x => Done x s | Freed => Fault end.

(** The member [directoryFile]. *)
Definition get_directoryFile : M ptr := fun s => Done (directoryFile s) s.
Definition get_freeMapFile : M ptr := fun s => Done (freeMapFile s) s.

(** [if (dirFile != directoryFile) delete dirFile;] *)
Definition delete_unless_root (dirFile : ptr) : M unit :=
  root ← get_directoryFile;
  if decide (dirFile = root) then ret tt else delete_OpenFile dirFile.

(** *** [IsDir] and [PreprocessPath] (lines 508-529) *)

(** [name[strlen(name)-1] == '/'].  On the empty string the source reads
    the byte before the buffer; no component built by [PreprocessPath]
    is empty. *)
Fixpoint IsDir (nm : string) : bool :=
  match nm with
  | EmptyString => false
  | String c EmptyString => Ascii.eqb c "/"
  | String _ rest => IsDir rest
  end.

Definition NAME_SIZE : nat := 255.

(** The loop of [PreprocessPath]: [nm] is the component being copied.  A
    component is pushed at each ['/'] and at the last character; one
    that does not fit the buffer of [NAME_SIZE] bytes with its
    terminating zero overruns it ([None]). *)
Fixpoint PreprocessPath_from (path : string) (nm : string) : option (list string) :=
  match path with
  | EmptyString => Some []
  | String c rest =>
      let nm' := nm +:+ String c EmptyString in
      if Ascii.eqb c "/" || (match rest with EmptyString => true | _ => false end)
      then
        if (NAME_SIZE <=? String.length nm')%nat then None
        else option_map (cons nm') (PreprocessPath_from rest EmptyString)
      else PreprocessPath_from rest nm'
  end.

Definition PreprocessPath (path : string) : option (list string) :=
  PreprocessPath_from path EmptyString.

(** *** [GoDirectory] (lines 539-576) *)

(** The [while] loop.  [nm] is the current value of [*name], [dirFile]
    and [directory] the two locals.  Each round pops the front of the
    queue; a round that does not [break] ends with [delete [] *name]. *)
Fixpoint GoDirectory_loop (pathQueue : list string) (nm : cstr)
    (dirFile : ptr) (directory : Directory) : M (ptr * cstr) :=
  match pathQueue with
  | [] => ret (dirFile, nm)
  | front :: rest =>
      if String.eqb front "/" then
        root ← get_directoryFile;
        directory' ← Directory_fetch root;
        GoDirectory_loop rest Freed root directory'
      else if IsDir front then
        let subDirSector := Directory_Find front directory in
        if subDirSector =? -1 then
          ASSERT (bool_decide (rest = [])) ;;
          ret (dirFile, Live front)
        else if bool_decide (rest = []) then ret (dirFile, Live front)
        else
          delete_unless_root dirFile ;;
          dirFile' ← new_OpenFile subDirSector;
          directory' ← Directory_fetch dirFile';
          GoDirectory_loop rest Freed dirFile' directory'
      else
        ASSERT (bool_decide (rest = [])) ;;
        ret (dirFile, Live front)
  end.

Definition GoDirectory (nm : string) : M (ptr * cstr) :=
  match PreprocessPath nm with
  | Some pathQueue =>
      GoDirectory_loop pathQueue (Live nm) NULL (new_Directory NumDirEntries)
  | None => fun _ => Fault
  end.

(** *** [Create] (lines 190-243) *)

Definition Create (nm : string) (initialSize : Z) : M bool :=
  '(dirFile, nm) ← GoDirectory nm;
  directory ← Directory_fetch dirFile;
  leaf ← use nm;
  if negb (Directory_Find leaf directory =? -1) then ret false
  else
    mapFile ← get_freeMapFile;
    freeMap ← Bitmap_fetch mapFile;
    let '(sec, freeMap) := Bitmap_FindAndSet freeMap in
    if sec =? -1 then ret false
    else
      match Directory_Add leaf sec directory with
      | None => ret false
      | Some directory =>
          match FileHeader_Allocate SectorSize freeMap initialSize with
          | (None, _) => ret false
          | (Some hdr, freeMap) =>
              FileHeader_write hdr sec ;;
              Directory_write directory dirFile ;;
              (if IsDir leaf then
                 newDirFile ← new_OpenFile sec;
                 Directory_write (new_Directory NumDirEntries) newDirFile ;;
                 delete_OpenFile newDirFile
               else ret tt) ;;
              delete_unless_root dirFile ;;
              Bitmap_write freeMap mapFile ;;
              ret true
          end
      end.

(** *** [Remove] (lines 313-363) *)

Definition Remove (nm : string) (recurRemoveFlag : bool) : M bool :=
  '(dirFile, nm) ← GoDirectory nm;
  directory ← Directory_fetch dirFile;
  leaf ← use nm;
  let sec := Directory_Find leaf directory in
  if sec =? -1 then ret false
  else
    mapFile ← get_freeMapFile;
    freeMap ← Bitmap_fetch mapFile;
    '(success, freeMap) ←
      (if recurRemoveFlag && IsDir leaf then
         subDirFile ← new_OpenFile sec;
         subDir ← Directory_fetch subDirFile;
         '(ok, subDir, freeMap) ← RecRemove subDir freeMap;
         Directory_write subDir subDirFile ;;
         delete_OpenFile subDirFile ;;
         ret (true && ok, freeMap)
       else ret (true, freeMap));
    fileHdr ← FileHeader_fetch sec;
    let freeMap := FileHeader_Deallocate fileHdr freeMap in
    let freeMap := Bitmap_Clear sec freeMap in
    let directory := default directory (Directory_Remove leaf directory) in
    Bitmap_write freeMap mapFile ;;
    Directory_write directory dirFile ;;
    delete_unless_root dirFile ;;
    ret success.

(** [Remove(name)] is [Remove(name, false)] (lines 306-309). *)
Definition Remove1 (nm : string) : M bool := Remove nm false.

(** *** The system-wide table (lines 480-506) *)

(** [sysOpFileTable[fd]]: [operator[]] of [std::map] enters a [NULL]
    value under a key that is absent and returns it. *)
Definition table_index (fd : Z) : M ptr :=
  fun s =>
    match sysOpFileTable s !! fd with
    | Some p => Done p s
    | None => Done NULL (set_table (<[fd := NULL]> (sysOpFileTable s)) s)
    end.

Definition GetOpenFileTable (fd : Z) : M ptr := table_index fd.

Definition SetOpenFileTable (fd : Z) (openFile : ptr) : M unit :=
  fun s => Done tt (set_table (<[fd := openFile]> (sysOpFileTable s)) s).

(** The [while (i < SYS_MAX_OPEN_FILE_NUM)] loop of [GetSysFd], with [n]
    rounds left.  Each round overwrites [fd] with
    [(fd + i) % SYS_MAX_OPEN_FILE_NUM] ([Z.rem] is the remainder of C++)
    and then increments [i].  [Some fd] stands for [TRUE] with
    [*fdout = fd], [None] for [FALSE]. *)
Fixpoint GetSysFd_loop (n : nat) (i fd : Z) : M (option Z) :=
  match n with
  | O => ret None
  | S n' =>
      let fd := Z.rem (fd + i) SYS_MAX_OPEN_FILE_NUM in
      opFile ← table_index fd;
      match opFile with
      | None => fun s => Done (Some fd) (set_fdPosition (fd + 1) s)
      | Some _ => GetSysFd_loop n' (i + 1) fd
      end
  end.

Definition GetSysFd : M (option Z) :=
  fun s => GetSysFd_loop (Z.to_nat SYS_MAX_OPEN_FILE_NUM) 0 (fdPosition s) s.

(** Modelled from the spec: [OpenFile::SetFd] assigns the descriptor
    tag of the handle. *)
Definition SetFd (p : ptr) (fd : Z) : M unit :=
  fun s =>
    match p, target p s with
    | Some a, Some f =>
        Done tt (set_heap (<[a := mkOpenFile (of_sector f) (of_hdr f) (of_seek f) fd]> (heap s)) s)
    | _, _ => Fault
    end.

(** *** [Open] (lines 255-291) *)

Definition Open (nm : string) : M ptr :=
  '(dirFile, nm) ← GoDirectory nm;
  directory ← Directory_fetch dirFile;
  delete_unless_root dirFile ;;
  leaf ← use nm;
  if IsDir leaf then ret NULL
  else
    let sec := Directory_Find leaf directory in
    if 0 <=? sec then
      openFile ← new_OpenFile sec;
      r ← GetSysFd;
      match r with
      | Some fd => SetFd openFile fd ;; ret openFile
      | None => delete_OpenFile openFile ;; ret NULL
      end
    else ret NULL.

(** *** [Read], [Write], [Seek], [Close] (lines 442-478) *)

(** [opFile->Read(buf, size)]: the count, the bytes put into [buf], and
    the handle with its new seek position. *)
Definition OpenFile_read (p : ptr) (size : Z) : M (Z * list Z) :=
  fun s =>
    match p, target p s with
    | Some a, Some f =>
        let '(n, bytes, f') := OpenFile_Read f size (disk s) in
        Done (n, bytes) (add_log (EvFileRead f size) (set_heap (<[a := f']> (heap s)) s))
    | _, _ => Fault
    end.

(** [opFile->Write(buf, size)]. *)
Definition OpenFile_write (p : ptr) (buf : list Z) (size : Z) : M Z :=
  fun s =>
    match p, target p s with
    | Some a, Some f =>
        let '(n, f', d') := OpenFile_Write f buf size (disk s) in
        Done n (add_log (EvFileWrite f buf size)
                  (set_disk d' (set_heap (<[a := f']> (heap s)) s)))
    | _, _ => Fault
    end.

(** [Read] returns the count and what it stored into [buf] (nothing when
    the descriptor has no handle). *)
Definition Read (size : Z) (fd : Z) : M (Z * list Z) :=
  opFile ← GetOpenFileTable fd;
  match opFile with
  | Some _ => OpenFile_read opFile size
  | None => ret (-1, [])
  end.

Definition Write (buf : list Z) (size : Z) (fd : Z) : M Z :=
  opFile ← GetOpenFileTable fd;
  match opFile with
  | Some _ => OpenFile_write opFile buf size
  | None => ret (-1)
  end.

Definition Seek (position : Z) (fd : Z) : M Z := ret 1.

Definition Close (fd : Z) : M Z :=
  opFile ← GetOpenFileTable fd;
  (fun s => Done tt (set_table (delete fd (sysOpFileTable s)) s)) ;;
  delete_OpenFile opFile ;;
  ret 1.

(** *** The descriptor scan in the words of the specification *)

(** A slot is free when the table has no handle under it. *)
Definition slot_free (t : gmap Z ptr) (fd : Z) : bool :=
  match t !! fd with
  | Some (Some _) => false
  | _ => true
  end.

(** The first free slot of a linear scan of the table that starts at
    [start] and wraps modulo the capacity: the slots
    [start, start + 1, ...] are tried in turn, [n] of them. *)
Fixpoint spec_scan (n : nat) (start : Z) (t : gmap Z ptr) : option Z :=
  match n with
  | O => None
  | S n' =>
      let fd := start mod SYS_MAX_OPEN_FILE_NUM in
      if slot_free t fd then Some fd else spec_scan n' (fd + 1) t
  end.

Definition spec_GetSysFd (s : FileSystem) : option Z :=
  spec_scan (Z.to_nat SYS_MAX_OPEN_FILE_NUM) (fdPosition s) (sysOpFileTable s).

(** All the slots of the table hold a handle. *)
Definition table_full (t : gmap Z ptr) : Prop :=
  forall fd, 0 <= fd < SYS_MAX_OPEN_FILE_NUM -> slot_free t fd = false.

(** A caller of [Open] that enters the handle it got in the table, under
    the descriptor the handle was tagged with (the use the table is
    meant for; [Open] itself does not fill the table). *)
Definition fd_of (p : ptr) : M Z :=
  fun s =>
    match target p s with
    | Some f => Done (of_fd f) s
    | None => Fault
    end.

Definition OpenAndBind (nm : string) : M ptr :=
  openFile ← Open nm;
  match openFile with
  | Some _ =>
      fd ← fd_of openFile;
      SetOpenFileTable fd openFile ;;
      ret openFile
  | None => ret NULL
  end.

(** The descriptor of the handle a call returned. *)
Definition granted_fd (c : M ptr) (s : FileSystem) : option Z :=
  match c s with
  | Done (Some a) s' => of_fd <$> heap s' !! a
  | _ => None
  end.

(** Running a call and keeping the state it leaves (the state is kept
    when the call does not return). *)
Definition after {A} (c : M A) (s : FileSystem) : FileSystem :=
  match c s with
  | Done _ s' => s'
  | _ => s
  end.

(** The value a call returns. *)
Definition result {A} (c : M A) (s : FileSystem) : option A :=
  match c s with
  | Done a _ => Some a
  | _ => None
  end.

(** *** Predicates used in the statements *)

(** An event that neither stores anything nor loads the bitmap. *)
Definition quiet (e : Event) : Prop := is_write e = false /\ is_map_fetch e = false.

(** A call that only reads: the disk, the table, the cursor and the two
    root pointers are as before, and the trace grew by quiet events. *)
Definition reads_only (s s' : FileSystem) : Prop :=
  disk s' = disk s /\
  freeMapFile s' = freeMapFile s /\
  directoryFile s' = directoryFile s /\
  sysOpFileTable s' = sysOpFileTable s /\
  fdPosition s' = fdPosition s /\
  exists evs, log s' = log s ++ evs /\ Forall quiet evs.

(** The trace of a call that stored nothing. *)
Definition no_write (s s' : FileSystem) : Prop :=
  exists evs, log s' = log s ++ evs /\ Forall (fun e => is_write e = false) evs.

(** The handles alive in [s0] are alive and unchanged in [s]. *)
Definition keeps_handles (s0 s : FileSystem) : Prop :=
  forall a f, heap s0 !! a = Some f -> heap s !! a = Some f.

(** [dirFile] is [NULL], the root handle, or a handle that was opened
    after [s0] and is alive in [s]. *)
Definition resolved (s0 s : FileSystem) (dirFile : ptr) : Prop :=
  dirFile = NULL \/
  dirFile = directoryFile s0 \/
  exists a, dirFile = Some a /\ heap s0 !! a = None /\ is_Some (heap s !! a).

(** The heap of [s] holds what the heap of [s0] held, and [dirFile] when
    it is not the root handle. *)
Definition exact_handles (s0 s : FileSystem) (dirFile : ptr) : Prop :=
  (dirFile = directoryFile s0 /\ heap s = heap s0) \/
  (exists a f, dirFile = Some a /\ heap s0 !! a = None /\
               heap s = <[a := f]> (heap s0)).

(** The free-map handle is open and is not the root directory handle. *)
Definition freeMap_open (s : FileSystem) (fm : OpenFile) : Prop :=
  target (freeMapFile s) s = Some fm /\ freeMapFile s <> directoryFile s.

(** The descriptor has no handle, or a handle that is alive. *)
Definition closable (s : FileSystem) (fd : Z) : Prop :=
  match sysOpFileTable s !! fd with
  | Some (Some a) => is_Some (heap s !! a)
  | _ => True
  end.

End FileSys.

Arguments Done {C A} a s.
Arguments AssertFailed {C A}.
Arguments Fault {C A}.

(** ** A reference implementation of the collaborators

    The theorems below are proved for every instance of [Collaborators].
    The instance of this section is the one the examples run on. *)

(** Modelled from the spec: the disk holds a file header in the sector
    of each file, and the content of each file: a directory table, a
    bitmap or plain bytes.  The content is kept per file, under the
    sector of its header; the byte layout over the data sectors is not
    part of the model. *)
Record RefDisk := mkRefDisk {
  rd_headers : gmap Z FileHeader;
  rd_dirs : gmap Z Directory;
  rd_maps : gmap Z Bitmap;
  rd_bytes : gmap Z (list Z)
}.

Definition ref_FetchHeader (sec : Z) (d : RefDisk) : FileHeader :=
  default (mkFileHeader 0 0 []) (rd_headers d !! sec).

Definition ref_WriteHeader (hdr : FileHeader) (sec : Z) (d : RefDisk) : RefDisk :=
  mkRefDisk (<[sec := hdr]> (rd_headers d)) (rd_dirs d) (rd_maps d) (rd_bytes d).

Definition ref_FetchDirectory (f : OpenFile) (d : RefDisk) : Directory :=
  default (new_Directory NumDirEntries) (rd_dirs d !! of_sector f).

Definition ref_WriteDirectory (t : Directory) (f : OpenFile) (d : RefDisk) : RefDisk :=
  mkRefDisk (rd_headers d) (<[of_sector f := t]> (rd_dirs d)) (rd_maps d) (rd_bytes d).

Definition ref_FetchBitmap (f : OpenFile) (n : nat) (d : RefDisk) : Bitmap :=
  default (replicate n false) (rd_maps d !! of_sector f).

Definition ref_WriteBitmap (b : Bitmap) (f : OpenFile) (d : RefDisk) : RefDisk :=
  mkRefDisk (rd_headers d) (rd_dirs d) (<[of_sector f := b]> (rd_maps d)) (rd_bytes d).

(** Modelled from the spec: [Directory::RecRemove] walks the entries in
    use; a sub-directory entry is reclaimed first, then the header and
    data sectors of the entry are cleared in the bitmap; the flag is the
    conjunction over the entries.  A nesting deeper than [fuel] levels is
    reported as a failed reclamation. *)
Fixpoint ref_RecRemove (fuel : nat) (d : RefDisk) (table : Directory) (b : Bitmap)
  : bool * Bitmap :=
  match fuel with
  | O => (false, b)
  | S fuel' =>
      fold_left
        (fun (acc : bool * Bitmap) (e : DirectoryEntry) =>
           let '(ok, b0) := acc in
           if inUse e then
             let '(ok1, b1) :=
               if IsDir (name e)
               then ref_RecRemove fuel' d
                      (default (new_Directory NumDirEntries) (rd_dirs d !! sector e)) b0
               else (true, b0) in
             (ok && ok1,
              Bitmap_Clear (sector e)
                (FileHeader_Deallocate (ref_FetchHeader (sector e) d) b1))
           else acc)
        table (true, b)
  end.

(** Modelled from the spec: the byte-range read and write of an open
    handle, at its seek position and within the length of the file. *)
Definition ref_Read (f : OpenFile) (size : Z) (d : RefDisk) : Z * list Z * OpenFile :=
  let content := default [] (rd_bytes d !! of_sector f) in
  let bytes := take (Z.to_nat size) (drop (Z.to_nat (of_seek f)) content) in
  let n := Z.of_nat (length bytes) in
  (n, bytes, mkOpenFile (of_sector f) (of_hdr f) (of_seek f + n) (of_fd f)).

Definition ref_Write (f : OpenFile) (buf : list Z) (size : Z) (d : RefDisk)
  : Z * OpenFile * RefDisk :=
  let content := default [] (rd_bytes d !! of_sector f) in
  let room := numBytes (of_hdr f) - of_seek f in
  let bytes := take (Z.to_nat (Z.min size room)) buf in
  let n := Z.of_nat (length bytes) in
  let content' :=
    take (Z.to_nat (of_seek f)) content ++ bytes
      ++ drop (Z.to_nat (of_seek f + n)) content in
  (n, mkOpenFile (of_sector f) (of_hdr f) (of_seek f + n) (of_fd f),
   mkRefDisk (rd_headers d) (rd_dirs d) (rd_maps d)
             (<[of_sector f := content']> (rd_bytes d))).

(** The reference machine: sectors of 128 bytes, 64 of them, and a table
    of 20 descriptors. *)
#[global] Instance refCollab : Collaborators := {|
  SectorSize := 128;
  NumSectors := 64;
  SYS_MAX_OPEN_FILE_NUM := 20;
  Disk := RefDisk;
  FileHeader_FetchFrom := ref_FetchHeader;
  FileHeader_WriteBack := ref_WriteHeader;
  Directory_FetchFrom := ref_FetchDirectory;
  Directory_WriteBack := ref_WriteDirectory;
  Bitmap_FetchFrom := ref_FetchBitmap;
  Bitmap_WriteBack := ref_WriteBitmap;
  Directory_RecRemove := fun t b d =>
    let '(ok, b') := ref_RecRemove 8 d t b in (ok, t, b');
  OpenFile_Read := ref_Read;
  OpenFile_Write := ref_Write
|}.

(** A freshly formatted disk: the headers of the bitmap file and of the
    root directory file in sectors 0 and 1, their data in sectors 2, 3
    and 4, an empty root directory. *)
Definition mapHdr : FileHeader := mkFileHeader 8 1 [2].
Definition dirHdr : FileHeader := mkFileHeader 200 2 [3; 4].

Definition formatted_map : Bitmap :=
  replicate 5 true ++ replicate 59 false.

Definition formatted_disk : RefDisk :=
  mkRefDisk (<[DirectorySector := dirHdr]> {[FreeMapSector := mapHdr]})
            {[DirectorySector := new_Directory NumDirEntries]}
            {[FreeMapSector := formatted_map]}
            ∅.

(** The file system after [FileSystem(true)]: the two root handles are
    open (at addresses 0 and 1), the table is empty. *)
Definition map_handle : OpenFile := mkOpenFile FreeMapSector mapHdr 0 (-1).
Definition root_handle : OpenFile := mkOpenFile DirectorySector dirHdr 0 (-1).

Definition fs0 : FileSystem :=
  mkFileSystem formatted_disk
    (<[1%nat := root_handle]> {[0%nat := map_handle]})
    (Some 0%nat) (Some 1%nat) ∅ 0 [].

(** *** States of the reference machine used in the examples *)

(** A plain file ["/f"] of 100 bytes. *)
Definition fs_f : FileSystem := after (Create "/f" 100) fs0.

(** The table after twenty [Open]s of ["/f"], each entered in the table:
    descriptors 0 to 19 are bound and the cursor is 20. *)
Definition fs_full : FileSystem := Nat.iter 20 (after (OpenAndBind "/f")) fs_f.

(** Descriptors 2 and 3 closed again, and descriptor 2 alone. *)
Definition fs_two_free : FileSystem := after (Close 3) (after (Close 2) fs_full).
Definition fs_one_free : FileSystem := after (Close 2) fs_full.

(** A sub-directory ["a/"] of the root, holding a file ["f"]. *)
Definition fs_a : FileSystem := after (Create "/a/f" 100) (after (Create "/a/" 0) fs0).

(** Nine directories nested in one another, more levels than the
    reference [RecRemove] descends. *)
Definition fs_deep : FileSystem :=
  foldl (fun s nm => after (Create nm 0) s) fs0
    ["/a/"; "/a/a/"; "/a/a/a/"; "/a/a/a/a/"; "/a/a/a/a/a/"; "/a/a/a/a/a/a/";
     "/a/a/a/a/a/a/a/"; "/a/a/a/a/a/a/a/a/"; "/a/a/a/a/a/a/a/a/a/"]%string.

(** ** The rest of [filesys.cc] *)

Section Constructor.
Context `{C : Collaborators}.

Definition set_freeMapFile (p : ptr) : M unit :=
  fun s =>
    Done tt (mkFileSystem (disk s) (heap s) p (directoryFile s)
               (sysOpFileTable s) (fdPosition s) (log s)).

Definition set_directoryFile (p : ptr) : M unit :=
  fun s =>
    Done tt (mkFileSystem (disk s) (heap s) (freeMapFile s) p
               (sysOpFileTable s) (fdPosition s) (log s)).

(** [#define FreeMapFileSize (NumSectors / BitsInByte)] and
    [#define DirectoryFileSize (sizeof(DirectoryEntry) * NumDirEntries)]
    (lines 65-67); [BitsInByte] and the size of an entry come from
    headers outside [filesys.cc] and are arguments. *)
Definition FreeMapFileSize (BitsInByte : Z) : Z :=
  Z.quot (Z.of_nat NumSectors) BitsInByte.

Definition DirectoryFileSize (entrySize : Z) : Z :=
  entrySize * Z.of_nat NumDirEntries.

(** Modelled from the spec: [PersistentBitmap(NumSectors)], the bitmap
    built at format time, has every bit clear. *)
Definition new_Bitmap (n : nat) : Bitmap := replicate n false.

(** [FileSystem::FileSystem(format)] (lines 82-149).  The two [ASSERT]s
    guard the allocations; the debug dump of lines 131-134 only prints. *)
Definition FileSystem_new (BitsInByte entrySize : Z) (format : bool) : M unit :=
  if format then
    let freeMap := new_Bitmap NumSectors in
    let directory := new_Directory NumDirEntries in
    let freeMap := Bitmap_Mark FreeMapSector freeMap in
    let freeMap := Bitmap_Mark DirectorySector freeMap in
    let '(mapHdr, freeMap) :=
      FileHeader_Allocate SectorSize freeMap (FreeMapFileSize BitsInByte) in
    ASSERT (bool_decide (is_Some mapHdr)) ;;
    let '(dirHdr, freeMap) :=
      FileHeader_Allocate SectorSize freeMap (DirectoryFileSize entrySize) in
    ASSERT (bool_decide (is_Some dirHdr)) ;;
    match mapHdr, dirHdr with
    | Some mapHdr, Some dirHdr =>
        FileHeader_write mapHdr FreeMapSector ;;
        FileHeader_write dirHdr DirectorySector ;;
        mapFile ← new_OpenFile FreeMapSector;
        set_freeMapFile mapFile ;;
        dirFile ← new_OpenFile DirectorySector;
        set_directoryFile dirFile ;;
        Bitmap_write freeMap mapFile ;;
        Directory_write directory dirFile
    | _, _ => fun _ => AssertFailed
    end
  else
    mapFile ← new_OpenFile FreeMapSector;
    set_freeMapFile mapFile ;;
    dirFile ← new_OpenFile DirectorySector;
    set_directoryFile dirFile.

(** [FileSystem::~FileSystem] (lines 155-159). *)
Definition FileSystem_delete : M unit :=
  mapFile ← get_freeMapFile;
  delete_OpenFile mapFile ;;
  dirFile ← get_directoryFile;
  delete_OpenFile dirFile.

(** *** Notions used in the statements on the rest of the file *)

(** The descriptor table and the cursor are what they were. *)
Definition keeps_table (s s' : FileSystem) : Prop :=
  sysOpFileTable s' = sysOpFileTable s /\ fdPosition s' = fdPosition s.

(** The sum [i + (i + 1) + ... + (i + j)] of the round numbers that
    [GetSysFd] has added to its slot after round [i + j]. *)
Fixpoint probe_offset (i : Z) (j : nat) : Z :=
  match j with
  | O => i
  | S j' => i + probe_offset (i + 1) j'
  end.

(** The slot that [GetSysFd] probes in round [j] (rounds count from 0). *)
Definition probe (s : FileSystem) (j : nat) : Z :=
  (fdPosition s + probe_offset 0 j) mod SYS_MAX_OPEN_FILE_NUM.

(** Every slot that the rounds of [GetSysFd] probe holds a handle. *)
Definition scan_blocked (s : FileSystem) : Prop :=
  forall j, (j < Z.to_nat SYS_MAX_OPEN_FILE_NUM)%nat ->
    slot_free (sysOpFileTable s) (probe s j) = false.

(** A caller that opens the names of a list one after the other and
    collects what [Open] returned. *)
Fixpoint Opens (nms : list string) : M (list ptr) :=
  match nms with
  | [] => ret []
  | nm :: rest =>
      openFile ← Open nm;
      others ← Opens rest;
      ret (openFile :: others)
  end.

(** The rounds of the [while] loop of [GoDirectory] that run to their
    end ([delete [] *name]; no [break], no [ASSERT] that fails):
    [GoDirectory_rounds q dirFile directory s q' dirFile' directory' s']
    says that the loop, holding the queue [q] and the locals [dirFile]
    and [directory] in the state [s], comes by such rounds to the queue
    [q'] with the locals [dirFile'] and [directory'] in the state [s'].
    A round of this kind is a root marker (lines 550-552) or a
    sub-directory that is found and is not the last component (lines
    553-565). *)
Inductive GoDirectory_rounds :
    list string -> ptr -> Directory -> FileSystem ->
    list string -> ptr -> Directory -> FileSystem -> Prop :=
  | rounds_none q dirFile directory s :
      GoDirectory_rounds q dirFile directory s q dirFile directory s
  | rounds_root rest dirFile directory s root s1 directory1 s2
        q' dirFile' directory' s' :
      get_directoryFile s = Done root s1 ->
      Directory_fetch root s1 = Done directory1 s2 ->
      GoDirectory_rounds rest root directory1 s2 q' dirFile' directory' s' ->
      GoDirectory_rounds ("/"%string :: rest) dirFile directory s
                         q' dirFile' directory' s'
  | rounds_sub front rest dirFile directory s s1 dirFile1 s2 directory1 s3
        q' dirFile' directory' s' :
      front <> "/"%string -> IsDir front = true ->
      Directory_Find front directory <> -1 -> rest <> [] ->
      delete_unless_root dirFile s = Done tt s1 ->
      new_OpenFile (Directory_Find front directory) s1 = Done dirFile1 s2 ->
      Directory_fetch dirFile1 s2 = Done directory1 s3 ->
      GoDirectory_rounds rest dirFile1 directory1 s3 q' dirFile' directory' s' ->
      GoDirectory_rounds (front :: rest) dirFile directory s
                         q' dirFile' directory' s'.

(** Every returning run of [c] relates the state before to the state
    after by [R]. *)
Definition preserves {A} (R : FileSystem -> FileSystem -> Prop) (c : M A) : Prop :=
  forall s a s', c s = Done a s' -> R s s'.

(** The disk is what it was and nothing was stored. *)
Definition stores_nothing (s s' : FileSystem) : Prop :=
  disk s' = disk s /\ no_write s s'.

(** The handles on the heap and the root pointer are what they were. *)
Definition same_heap (s s' : FileSystem) : Prop :=
  heap s' = heap s /\ directoryFile s' = directoryFile s.

(** The heap [h] after [if (dirFile != directoryFile) delete dirFile]. *)
Definition released (dirFile root : ptr) (h : gmap nat OpenFile) : gmap nat OpenFile :=
  if decide (dirFile = root) then h
  else match dirFile with
       | Some a => delete a h
       | None => h
       end.

End Constructor.

(** The path starts at the root. *)
Definition starts_with_slash (nm : string) : bool :=
  match nm with
  | String c _ => Ascii.eqb c "/"
  | EmptyString => false
  end.

(** No ['/'] in the string. *)
Fixpoint slash_free (s : string) : bool :=
  match s with
  | EmptyString => true
  | String c rest => negb (Ascii.eqb c "/") && slash_free rest
  end.

(** A component that names a directory: a part without ['/'], then
    ['/'].  A component that names a file: not empty, without ['/']. *)
Definition dir_component (c : string) : Prop :=
  exists body, c = body +:+ "/" /\ slash_free body = true.

Definition file_component (c : string) : Prop :=
  c <> EmptyString /\ slash_free c = true.

(** A queue of directory components, with at most one file component,
    at the end. *)
Inductive components : list string -> Prop :=
  | components_nil : components []
  | components_file c : file_component c -> components [c]
  | components_dir c q : dir_component c -> components q -> components (c :: q).

(** The blank machine the constructor starts from: no handle is open,
    the table is empty, the members are not yet set. *)
Definition blank (d : RefDisk) : FileSystem :=
  mkFileSystem d ∅ NULL NULL ∅ 0 [].

Definition blank_disk : RefDisk := mkRefDisk ∅ ∅ ∅ ∅.

(** ** General facts on the monad and on the primitive steps *)

Section Properties.
Context `{C : Collaborators}.

Implicit Types (s : FileSystem) (p dirFile : ptr) (nm leaf : string).

Lemma reads_only_refl s : reads_only s s.
Proof.
  repeat split; exists []; split; [by rewrite app_nil_r | constructor].
Qed.

Lemma reads_only_trans s1 s2 s3 :
  reads_only s1 s2 -> reads_only s2 s3 -> reads_only s1 s3.
Proof.
  intros (Hd & Hf & Hr & Ht & Hp & evs & Hl & Hq)
         (Hd' & Hf' & Hr' & Ht' & Hp' & evs' & Hl' & Hq').
  repeat split; try congruence.
  exists (evs ++ evs'). split.
  - rewrite Hl', Hl. by rewrite app_assoc.
  - by apply Forall_app.
Qed.

Lemma reads_only_set_heap h s : reads_only s (set_heap h s).
Proof.
  unfold reads_only; simpl. repeat split.
  exists []. split; [by rewrite app_nil_r | constructor].
Qed.

Lemma reads_only_add_log e s : quiet e -> reads_only s (add_log e s).
Proof.
  intros He. repeat split. exists [e]. split; [done | by constructor].
Qed.

Lemma mbind_Done {A B} (c : M A) (k : A -> M B) s a s' :
  c s = Done a s' -> (c ≫= k) s = k a s'.
Proof. intros H. unfold mbind, M_bind. by rewrite H. Qed.

Lemma mbind_inv {A B} (c : M A) (k : A -> M B) s b s'' :
  (c ≫= k) s = Done b s'' ->
  exists a s', c s = Done a s' /\ k a s' = Done b s''.
Proof.
  unfold mbind, M_bind. destruct (c s) as [a s'| |]; [eauto | done | done].
Qed.

Lemma Directory_fetch_reads p s d s' :
  Directory_fetch p s = Done d s' -> reads_only s s'.
Proof.
  unfold Directory_fetch. destruct (target p s); [|done].
  intros [= _ <-]. by apply reads_only_add_log.
Qed.

Lemma new_OpenFile_reads sec s p s' :
  new_OpenFile sec s = Done p s' -> reads_only s s'.
Proof.
  unfold new_OpenFile. intros [= _ <-].
  eapply reads_only_trans; [apply reads_only_set_heap|].
  by apply reads_only_add_log.
Qed.

Lemma delete_OpenFile_reads p s u s' :
  delete_OpenFile p s = Done u s' -> reads_only s s'.
Proof.
  unfold delete_OpenFile. destruct p as [a|].
  - destruct (heap s !! a); [|done]. intros [= _ <-]. apply reads_only_set_heap.
  - intros [= _ <-]. apply reads_only_refl.
Qed.

Lemma delete_unless_root_reads p s u s' :
  delete_unless_root p s = Done u s' -> reads_only s s'.
Proof.
  unfold delete_unless_root, mbind, M_bind, get_directoryFile.
  destruct (decide (p = directoryFile s)).
  - intros [= _ <-]. apply reads_only_refl.
  - apply delete_OpenFile_reads.
Qed.

Lemma ASSERT_inv b s u s' : ASSERT b s = Done u s' -> b = true /\ s' = s.
Proof. unfold ASSERT. destruct b; [by intros [= _ <-] | done]. Qed.

(** [GoDirectory] only reads. *)
Lemma GoDirectory_loop_reads pathQueue : forall n dirFile directory s r s',
  GoDirectory_loop pathQueue n dirFile directory s = Done r s' -> reads_only s s'.
Proof.
  induction pathQueue as [|front rest IH]; intros n dirFile directory s r s'; simpl.
  - intros [= _ <-]. apply reads_only_refl.
  - destruct (String.eqb front "/").
    + intros H. apply mbind_inv in H as (root & s1 & [= <- <-] & H).
      apply mbind_inv in H as (d' & s2 & Hf & H).
      eapply reads_only_trans; [eapply Directory_fetch_reads, Hf|].
      eapply IH, H.
    + destruct (IsDir front).
      * destruct (Directory_Find front directory =? -1).
        { intros H. apply mbind_inv in H as (u & s1 & Ha & [= _ <-]).
          apply ASSERT_inv in Ha as [_ ->]. apply reads_only_refl. }
        destruct (bool_decide (rest = [])).
        { intros [= _ <-]. apply reads_only_refl. }
        intros H. apply mbind_inv in H as (u & s1 & Hd & H).
        apply mbind_inv in H as (p' & s2 & Hn & H).
        apply mbind_inv in H as (d' & s3 & Hf & H).
        eapply reads_only_trans; [eapply delete_unless_root_reads, Hd|].
        eapply reads_only_trans; [eapply new_OpenFile_reads, Hn|].
        eapply reads_only_trans; [eapply Directory_fetch_reads, Hf|].
        eapply IH, H.
      * intros H. apply mbind_inv in H as (u & s1 & Ha & [= _ <-]).
        apply ASSERT_inv in Ha as [_ ->]. apply reads_only_refl.
Qed.

Lemma GoDirectory_reads nm s r s' :
  GoDirectory nm s = Done r s' -> reads_only s s'.
Proof.
  unfold GoDirectory. destruct (PreprocessPath nm); [|done].
  apply GoDirectory_loop_reads.
Qed.

(** ** The handles of [GoDirectory]

    The handles that were open when the resolution started are left as
    they are (in particular the two root handles are never released),
    and the handle returned is [NULL], the root handle, or a handle that
    the resolution opened and left open. *)

Lemma fresh_heap_None (h : gmap nat OpenFile) : h !! fresh (dom h) = None.
Proof. apply not_elem_of_dom, is_fresh. Qed.

Lemma delete_unless_root_keeps s0 s dirFile u s1 :
  keeps_handles s0 s -> directoryFile s = directoryFile s0 ->
  resolved s0 s dirFile ->
  delete_unless_root dirFile s = Done u s1 ->
  keeps_handles s0 s1 /\ directoryFile s1 = directoryFile s0.
Proof.
  intros Hk Hr Hres.
  unfold delete_unless_root, mbind, M_bind, get_directoryFile.
  destruct (decide (dirFile = directoryFile s)) as [->|Hne].
  { by intros [= _ <-]. }
  unfold delete_OpenFile. destruct dirFile as [a|]; [|by intros [= _ <-]].
  destruct (heap s !! a) eqn:Ha; [|done]. intros [= _ <-]. split; [|done].
  intros a0 f0 H0. simpl.
  destruct Hres as [H|[H|(a' & [= <-] & Hnone & _)]]; [done|congruence|].
  rewrite lookup_delete_ne by congruence. by apply Hk.
Qed.

Lemma new_OpenFile_keeps s0 s sec p s1 :
  keeps_handles s0 s -> directoryFile s = directoryFile s0 ->
  new_OpenFile sec s = Done p s1 ->
  keeps_handles s0 s1 /\ directoryFile s1 = directoryFile s0 /\
  resolved s0 s1 p /\
  target p s1 = Some (mkOpenFile sec (FileHeader_FetchFrom sec (disk s)) 0 (-1)).
Proof.
  intros Hk Hr. unfold new_OpenFile. intros [= <- <-]. simpl.
  pose proof (fresh_heap_None (heap s)) as Hfresh.
  repeat split; [|done| |by rewrite lookup_insert_eq].
  - intros a f Ha. simpl. apply Hk in Ha.
    rewrite lookup_insert_ne by congruence. done.
  - right; right. eexists. split; [done|]. simpl. split.
    + destruct (heap s0 !! fresh (dom (heap s))) eqn:E; [|done].
      apply Hk in E. congruence.
    + rewrite lookup_insert_eq. eauto.
Qed.

Lemma Directory_fetch_heap p s d s' :
  Directory_fetch p s = Done d s' ->
  heap s' = heap s /\ directoryFile s' = directoryFile s.
Proof.
  unfold Directory_fetch. destruct (target p s); [|done]. by intros [= _ <-].
Qed.

Lemma keeps_handles_eq_heap s0 s s' :
  keeps_handles s0 s -> heap s' = heap s -> keeps_handles s0 s'.
Proof. intros Hk He a f Ha. rewrite He. by apply Hk. Qed.

Lemma resolved_eq_heap s0 s s' p :
  resolved s0 s p -> heap s' = heap s -> resolved s0 s' p.
Proof.
  intros [H|[H|(a & Hp & Hn & Hs)]] He; [by left | by right; left |].
  right; right. exists a. by rewrite He.
Qed.

Lemma GoDirectory_loop_handles s0 pathQueue :
  forall n dirFile directory s dirFile' n' s',
  keeps_handles s0 s -> directoryFile s = directoryFile s0 ->
  resolved s0 s dirFile ->
  GoDirectory_loop pathQueue n dirFile directory s = Done (dirFile', n') s' ->
  keeps_handles s0 s' /\ resolved s0 s' dirFile'.
Proof.
  induction pathQueue as [|front rest IH];
    intros n dirFile directory s dirFile' n' s' Hk Hr Hres; simpl.
  - by intros [= <- _ <-].
  - destruct (String.eqb front "/").
    + intros H. apply mbind_inv in H as (root & s1 & [= <- <-] & H).
      apply mbind_inv in H as (d' & s2 & Hf & H).
      apply Directory_fetch_heap in Hf as [Hh Hr2].
      eapply IH; [..|exact H].
      * by eapply keeps_handles_eq_heap.
      * congruence.
      * right; left. done.
    + destruct (IsDir front).
      * destruct (Directory_Find front directory =? -1).
        { intros H. apply mbind_inv in H as (u & s1 & Ha & [= <- _ <-]).
          by apply ASSERT_inv in Ha as [_ ->]. }
        destruct (bool_decide (rest = [])).
        { by intros [= <- _ <-]. }
        intros H. apply mbind_inv in H as (u & s1 & Hd & H).
        apply mbind_inv in H as (p' & s2 & Hn & H).
        apply mbind_inv in H as (d' & s3 & Hf & H).
        eapply delete_unless_root_keeps in Hd as [Hk1 Hr1]; [|done..].
        eapply new_OpenFile_keeps in Hn as (Hk2 & Hr2 & Hres2 & _); [|done..].
        apply Directory_fetch_heap in Hf as [Hh Hr3].
        eapply IH; [..|exact H].
        -- by eapply keeps_handles_eq_heap.
        -- congruence.
        -- by eapply resolved_eq_heap.
      * intros H. apply mbind_inv in H as (u & s1 & Ha & [= <- _ <-]).
        by apply ASSERT_inv in Ha as [_ ->].
Qed.

Lemma GoDirectory_handles nm s dirFile n s' :
  GoDirectory nm s = Done (dirFile, n) s' ->
  keeps_handles s s' /\ resolved s s' dirFile.
Proof.
  unfold GoDirectory. destruct (PreprocessPath nm); [|done].
  apply GoDirectory_loop_handles; [by intros a f | done | by left].
Qed.

Lemma GoDirectory_freeMap nm s dirFile n s' fm :
  GoDirectory nm s = Done (dirFile, n) s' ->
  freeMap_open s fm ->
  target (freeMapFile s') s' = Some fm /\ dirFile <> freeMapFile s' /\
  freeMapFile s' <> directoryFile s'.
Proof.
  intros Hgo [Hfm Hne].
  pose proof (GoDirectory_reads _ _ _ _ Hgo) as (_ & Hf & Hr & _).
  apply GoDirectory_handles in Hgo as [Hk Hres].
  rewrite Hf, Hr. destruct (freeMapFile s) as [a|] eqn:Ea; [|done].
  simpl in *. split; [by apply Hk|]. split; [|done].
  destruct Hres as [->|[->|(a' & -> & Hn & _)]]; [done|done|congruence].
Qed.

(** ** [Remove] of a name that is not there *)

Lemma Directory_fetch_Done p s f :
  target p s = Some f ->
  Directory_fetch p s = Done (Directory_FetchFrom f (disk s)) (add_log (EvDirFetch f) s).
Proof. intros H. unfold Directory_fetch. by rewrite H. Qed.

(** C4: when the leaf is not found in the resolved directory, [Remove]
    returns [FALSE]; the disk is what it was, and the calls made on the
    way neither store anything nor load the bitmap. *)
Theorem Remove_not_found nm recur s s1 dirFile leaf f :
  GoDirectory nm s = Done (dirFile, Live leaf) s1 ->
  target dirFile s1 = Some f ->
  Directory_Find leaf (Directory_FetchFrom f (disk s1)) = -1 ->
  exists s', Remove nm recur s = Done false s' /\
    disk s' = disk s /\
    exists evs, log s' = log s ++ evs /\ Forall quiet evs.
Proof.
  intros Hgo Hf Hfind.
  exists (add_log (EvDirFetch f) s1). split.
  - unfold Remove. erewrite mbind_Done by exact Hgo. simpl.
    erewrite mbind_Done by (by apply Directory_fetch_Done).
    erewrite mbind_Done by reflexivity.
    by rewrite Hfind.
  - apply GoDirectory_reads in Hgo as (Hd & _ & _ & _ & _ & evs & Hl & Hq).
    simpl. split; [done|].
    exists (evs ++ [EvDirFetch f]). split.
    + by rewrite Hl, app_assoc.
    + apply Forall_app. split; [done|]. by repeat constructor.
Qed.

(** ** [Create] *)

Lemma Bitmap_fetch_Done p s f :
  target p s = Some f ->
  Bitmap_fetch p s
  = Done (Bitmap_FetchFrom f NumSectors (disk s)) (add_log (EvMapFetch f) s).
Proof. intros H. unfold Bitmap_fetch. by rewrite H. Qed.

Lemma target_add_log p e s : target p (add_log e s) = target p s.
Proof. by destruct p. Qed.

Lemma target_set_disk p d s : target p (set_disk d s) = target p s.
Proof. by destruct p. Qed.

Lemma reads_only_no_write s s' : reads_only s s' -> no_write s s'.
Proof.
  intros (_ & _ & _ & _ & _ & evs & Hl & Hq). exists evs. split; [done|].
  eapply Forall_impl; [exact Hq|]. by intros e [He _].
Qed.

Lemma no_write_step s s' e :
  no_write s s' -> is_write e = false -> no_write s (add_log e s').
Proof.
  intros (evs & Hl & Hq) He. exists (evs ++ [e]). split.
  - simpl. by rewrite Hl, app_assoc.
  - apply Forall_app. split; [done | by constructor].
Qed.

(** C1: a [Create] that fails (the name is in the resolved directory,
    no sector is free for the header, the directory takes no new entry,
    or the data sectors cannot be allocated) returns [FALSE], leaves the
    disk as it was and makes no call that stores anything. *)
Theorem Create_failure_keeps_disk nm initialSize s s1 dirFile leaf f fm :
  GoDirectory nm s = Done (dirFile, Live leaf) s1 ->
  target dirFile s1 = Some f ->
  freeMap_open s fm ->
  let directory := Directory_FetchFrom f (disk s1) in
  let freeMap := Bitmap_FetchFrom fm NumSectors (disk s1) in
  let sec := (Bitmap_FindAndSet freeMap).1 in
  Directory_Find leaf directory <> -1 \/
  sec = -1 \/
  Directory_Add leaf sec directory = None \/
  (FileHeader_Allocate SectorSize (Bitmap_FindAndSet freeMap).2 initialSize).1 = None ->
  exists s', Create nm initialSize s = Done false s' /\
    disk s' = disk s /\ no_write s s'.
Proof.
  intros Hgo Hf Hopen directory freeMap sec Hfail.
  destruct (GoDirectory_freeMap _ _ _ _ _ _ Hgo Hopen) as (Hfm & _ & _).
  pose proof (GoDirectory_reads _ _ _ _ Hgo) as Hro.
  assert (Hd : disk s1 = disk s) by apply Hro.
  apply reads_only_no_write in Hro.
  unfold Create. erewrite mbind_Done by exact Hgo. simpl.
  erewrite mbind_Done by (by apply Directory_fetch_Done).
  erewrite mbind_Done by reflexivity.
  fold directory.
  destruct (Directory_Find leaf directory =? -1) eqn:Efind; simpl.
  2:{ eexists. split; [reflexivity|]. split; [done|]. by apply no_write_step. }
  erewrite mbind_Done by reflexivity.
  erewrite mbind_Done by (apply Bitmap_fetch_Done; rewrite target_add_log; exact Hfm).
  simpl. fold freeMap.
  assert (Hnw : no_write s (add_log (EvMapFetch fm) (add_log (EvDirFetch f) s1)))
    by (by repeat apply no_write_step).
  subst sec.
  destruct (Bitmap_FindAndSet freeMap) as [sec freeMap1]. simpl in Hfail.
  destruct (sec =? -1) eqn:Esec.
  { eexists. split; [reflexivity|]. by split. }
  destruct (Directory_Add leaf sec directory) as [directory1|].
  2:{ eexists. split; [reflexivity|]. by split. }
  destruct (FileHeader_Allocate SectorSize freeMap1 initialSize) as [[hdr|] freeMap2].
  2:{ eexists. split; [reflexivity|]. by split. }
  exfalso. simpl in Hfail. destruct Hfail as [H|[H|[H|H]]]; [|lia|done|done].
  apply H. lia.
Qed.

Lemma Directory_write_Done d p s f :
  target p s = Some f ->
  Directory_write d p s
  = Done tt (add_log (EvDirWrite d f) (set_disk (Directory_WriteBack d f (disk s)) s)).
Proof. intros H. unfold Directory_write. by rewrite H. Qed.

Lemma Bitmap_write_Done b p s f :
  target p s = Some f ->
  Bitmap_write b p s
  = Done tt (add_log (EvMapWrite b f) (set_disk (Bitmap_WriteBack b f (disk s)) s)).
Proof. intros H. unfold Bitmap_write. by rewrite H. Qed.

(** Opening a handle and deleting it again leaves the heap as it was. *)
Lemma delete_fresh (h : gmap nat OpenFile) f :
  delete (fresh (dom h)) (<[fresh (dom h) := f]> h) = h.
Proof. rewrite delete_insert_eq. apply delete_id, fresh_heap_None. Qed.

(** After [if (dirFile != directoryFile) delete dirFile] every handle
    other than [dirFile] is as before. *)
Lemma delete_unless_root_Done dirFile s f :
  target dirFile s = Some f ->
  exists s', delete_unless_root dirFile s = Done tt s' /\
    disk s' = disk s /\ log s' = log s /\ freeMapFile s' = freeMapFile s /\
    forall q, q <> dirFile -> target q s' = target q s.
Proof.
  intros Hf. unfold delete_unless_root, mbind, M_bind, get_directoryFile.
  destruct (decide (dirFile = directoryFile s)).
  { eexists. split; [reflexivity|]. done. }
  destruct dirFile as [a|]; [|done]. simpl in *. rewrite Hf.
  eexists. split; [reflexivity|]. repeat split.
  intros [a'|] Hq; [|done]. simpl. apply lookup_delete_ne. congruence.
Qed.

(** The block that formats a new sub-directory (lines 225-230): the
    handle it opens is released again. *)
Lemma format_subdir_Done sec D s :
  let nf := mkOpenFile sec (FileHeader_FetchFrom sec (disk s)) 0 (-1) in
  (newDirFile ← new_OpenFile sec;
   Directory_write D newDirFile ;; delete_OpenFile newDirFile) s
  = Done tt (add_log (EvDirWrite D nf)
               (set_disk (Directory_WriteBack D nf (disk s))
                  (add_log (EvHdrFetch sec) s))).
Proof.
  intros nf. unfold mbind, M_bind, new_OpenFile, Directory_write, delete_OpenFile.
  simpl. rewrite lookup_insert_eq. simpl. rewrite lookup_insert_eq.
  unfold add_log, set_disk, set_heap. simpl. by rewrite delete_fresh.
Qed.

(** C2: when the name is not in the resolved directory, a sector is
    found for the header, the directory takes the entry and the data
    sectors are allocated, [Create] returns [TRUE] and stores, in this
    order: the new header in its sector, the containing directory, an
    empty directory table in the new file when (and only when) the name
    ends in ['/'], and last the bitmap. *)
Theorem Create_success_writes nm initialSize s s1 dirFile leaf f fm
    sec freeMap1 directory1 hdr freeMap2 :
  GoDirectory nm s = Done (dirFile, Live leaf) s1 ->
  target dirFile s1 = Some f ->
  freeMap_open s fm ->
  let directory := Directory_FetchFrom f (disk s1) in
  let freeMap := Bitmap_FetchFrom fm NumSectors (disk s1) in
  Directory_Find leaf directory = -1 ->
  Bitmap_FindAndSet freeMap = (sec, freeMap1) ->
  sec <> -1 ->
  Directory_Add leaf sec directory = Some directory1 ->
  FileHeader_Allocate SectorSize freeMap1 initialSize = (Some hdr, freeMap2) ->
  let d1 := Directory_WriteBack directory1 f (FileHeader_WriteBack hdr sec (disk s1)) in
  let newDirFile := mkOpenFile sec (FileHeader_FetchFrom sec d1) 0 (-1) in
  exists s', Create nm initialSize s = Done true s' /\
    log s' = log s1
      ++ [EvDirFetch f; EvMapFetch fm; EvHdrWrite hdr sec; EvDirWrite directory1 f]
      ++ (if IsDir leaf
          then [EvHdrFetch sec; EvDirWrite (new_Directory NumDirEntries) newDirFile]
          else [])
      ++ [EvMapWrite freeMap2 fm] /\
    disk s' = Bitmap_WriteBack freeMap2 fm
                (if IsDir leaf
                 then Directory_WriteBack (new_Directory NumDirEntries) newDirFile d1
                 else d1).
Proof.
  intros Hgo Hf Hopen directory freeMap Hfind Hfas Hsec Hadd Halloc d1 newDirFile.
  destruct (GoDirectory_freeMap _ _ _ _ _ _ Hgo Hopen) as (Hfm & Hne & _).
  unfold Create. erewrite mbind_Done by exact Hgo. simpl.
  erewrite mbind_Done by (by apply Directory_fetch_Done).
  erewrite mbind_Done by reflexivity.
  fold directory. rewrite Hfind. simpl.
  erewrite mbind_Done by reflexivity.
  erewrite mbind_Done by (apply Bitmap_fetch_Done; rewrite target_add_log; exact Hfm).
  simpl. fold freeMap. rewrite Hfas.
  destruct (sec =? -1) eqn:Esec; [lia|].
  rewrite Hadd, Halloc.
  erewrite mbind_Done by reflexivity.
  erewrite mbind_Done by
    (apply Directory_write_Done; rewrite target_add_log, target_set_disk,
       !target_add_log; exact Hf).
  simpl. fold d1.
  match goal with
  | |- exists s', (_ ≫= _) ?s2 = _ /\ _ =>
      assert (Hf2 : target dirFile s2 = Some f) by (by destruct dirFile);
      assert (Hfm2 : target (freeMapFile s1) s2 = Some fm)
        by (by destruct (freeMapFile s1))
  end.
  destruct (IsDir leaf);
    [erewrite mbind_Done by apply format_subdir_Done
    |erewrite mbind_Done by reflexivity];
    (match goal with
     | |- exists s', (_ ≫= _) ?s3 = _ /\ _ =>
         destruct (delete_unless_root_Done dirFile s3 f)
           as (s4 & Hdel & Hd4 & Hl4 & Hfm4 & Hq4); [by destruct dirFile|]
     end;
     erewrite mbind_Done by exact Hdel;
     erewrite mbind_Done by
       (apply Bitmap_write_Done; rewrite Hq4 by congruence;
        by destruct (freeMapFile s1));
     eexists; split; [reflexivity|]; simpl; rewrite Hl4, Hd4; simpl;
     split; [|done]; by rewrite <- !app_assoc).
Qed.

(** X25: whenever [Create] returns [FALSE], whatever the reason, the
    disk is what it was and nothing was stored. *)
Lemma Create_FALSE_keeps_disk nm initialSize s s' :
  Create nm initialSize s = Done false s' -> disk s' = disk s /\ no_write s s'.
Proof.
  unfold Create. intros H.
  apply mbind_inv in H as ([dirFile n] & s1 & Hgo & H).
  apply mbind_inv in H as (directory & s2 & Hf & H).
  apply mbind_inv in H as (leaf & s3 & Hu & H).
  assert (Hs3 : s3 = s2) by (destruct n; [by injection Hu | done]). subst s3.
  assert (Hro : reads_only s s2).
  { eapply reads_only_trans; [eapply GoDirectory_reads, Hgo|].
    eapply Directory_fetch_reads, Hf. }
  assert (Hbase : disk s2 = disk s /\ no_write s s2)
    by (split; [apply Hro | by apply reads_only_no_write]).
  destruct (negb (Directory_Find leaf directory =? -1)); [by injection H as <-|].
  apply mbind_inv in H as (mapFile & s4 & [= <- <-] & H).
  apply mbind_inv in H as (freeMap & s5 & Hb & H).
  assert (Hs5 : disk s5 = disk s /\ no_write s s5).
  { revert Hb. unfold Bitmap_fetch. destruct (target (freeMapFile s2) s2); [|done].
    intros [= _ <-]. destruct Hbase as [Hd Hn]. split; [done|].
    by apply no_write_step. }
  destruct (Bitmap_FindAndSet freeMap) as [sec freeMap1].
  destruct (sec =? -1); [by injection H as <-|].
  destruct (Directory_Add leaf sec directory) as [directory1|];
    [|by injection H as <-].
  destruct (FileHeader_Allocate SectorSize freeMap1 initialSize) as [[hdr|] freeMap2];
    [|by injection H as <-].
  apply mbind_inv in H as (u1 & t1 & _ & H).
  apply mbind_inv in H as (u2 & t2 & _ & H).
  apply mbind_inv in H as (u3 & t3 & _ & H).
  apply mbind_inv in H as (u4 & t4 & _ & H).
  apply mbind_inv in H as (u5 & t5 & _ & H).
  discriminate H.
Qed.

(** ** [Remove] of a name that is there *)

Lemma Directory_Find_Remove leaf (directory : Directory) :
  Directory_Find leaf directory <> -1 ->
  exists directory', Directory_Remove leaf directory = Some directory'.
Proof.
  unfold Directory_Find, Directory_Remove.
  destruct (Directory_FindIndex leaf directory 0) as [i|]; [|done].
  destruct (directory !! i); [eauto | done].
Qed.

Lemma Bitmap_Test_Clear_ne k w (b : Bitmap) :
  k <> w -> Bitmap_Test k (Bitmap_Clear w b) = Bitmap_Test k b.
Proof.
  intros Hne. unfold Bitmap_Test, Bitmap_Clear, Bitmap in *.
  destruct (0 <=? k) eqn:Ek; [|done].
  destruct (0 <=? w) eqn:Ew; [|done].
  rewrite list_lookup_insert_ne; [done|]. lia.
Qed.

(** Sectors outside the header keep their bit through [Deallocate]. *)
Lemma Bitmap_Test_Deallocate k hdr (b : Bitmap) :
  k ∉ dataSectors hdr ->
  Bitmap_Test k (FileHeader_Deallocate hdr b) = Bitmap_Test k b.
Proof.
  unfold FileHeader_Deallocate. generalize (dataSectors hdr) as l.
  intros l. revert b. induction l as [|x l IH]; intros b Hk; [done|].
  simpl. rewrite IH by set_solver.
  apply Bitmap_Test_Clear_ne. set_solver.
Qed.

(** The recursive step of [Remove] (lines 335-342): the handle it opens
    on the sub-directory is released again. *)
Lemma recursive_step_Done sec b s ok subDir' b' :
  let sf := mkOpenFile sec (FileHeader_FetchFrom sec (disk s)) 0 (-1) in
  let subDir := Directory_FetchFrom sf (disk s) in
  Directory_RecRemove subDir b (disk s) = (ok, subDir', b') ->
  (subDirFile ← new_OpenFile sec;
   subDir ← Directory_fetch subDirFile;
   '(ok, subDir, freeMap) ← RecRemove subDir b;
   Directory_write subDir subDirFile ;;
   delete_OpenFile subDirFile ;;
   ret (true && ok, freeMap)) s
  = Done (ok, b')
      (add_log (EvDirWrite subDir' sf)
         (set_disk (Directory_WriteBack subDir' sf (disk s))
            (add_log (EvRecRemove subDir b)
               (add_log (EvDirFetch sf) (add_log (EvHdrFetch sec) s))))).
Proof.
  intros sf subDir Hrec.
  unfold mbind, M_bind, new_OpenFile, Directory_fetch, RecRemove,
    Directory_write, delete_OpenFile.
  simpl. rewrite lookup_insert_eq. simpl. fold sf. fold subDir. rewrite Hrec.
  simpl. rewrite lookup_insert_eq. simpl. rewrite lookup_insert_eq.
  unfold add_log, set_disk, set_heap. simpl. by rewrite delete_fresh.
Qed.

(** The end of [Remove] (lines 345-362), from a state in which the
    directory handle and the free-map handle are open. *)
Lemma Remove_tail_Done sec leaf (directory directory' : Directory)
    (freeMap : Bitmap) dirFile (success : bool) s f fm :
  target dirFile s = Some f ->
  target (freeMapFile s) s = Some fm ->
  Directory_Remove leaf directory = Some directory' ->
  let fileHdr := FileHeader_FetchFrom sec (disk s) in
  let freeMap' := Bitmap_Clear sec (FileHeader_Deallocate fileHdr freeMap) in
  exists s',
    (fileHdr ← FileHeader_fetch sec;
     Bitmap_write (Bitmap_Clear sec (FileHeader_Deallocate fileHdr freeMap))
       (freeMapFile s) ;;
     Directory_write (default directory (Directory_Remove leaf directory)) dirFile ;;
     delete_unless_root dirFile ;;
     ret success) s = Done success s' /\
    log s' = log s ++ [EvHdrFetch sec; EvMapWrite freeMap' fm; EvDirWrite directory' f] /\
    disk s' = Directory_WriteBack directory' f (Bitmap_WriteBack freeMap' fm (disk s)).
Proof.
  intros Hf Hfm Hrem fileHdr freeMap'.
  erewrite mbind_Done by reflexivity.
  erewrite mbind_Done by (apply Bitmap_write_Done; rewrite target_add_log; exact Hfm).
  erewrite mbind_Done by
    (apply Directory_write_Done;
     rewrite target_add_log, target_set_disk, target_add_log; exact Hf).
  rewrite Hrem. simpl.
  match goal with
  | |- exists s', (_ ≫= _) ?s3 = _ /\ _ =>
      destruct (delete_unless_root_Done dirFile s3 f)
        as (s4 & Hdel & Hd4 & Hl4 & _); [by destruct dirFile|]
  end.
  erewrite mbind_Done by exact Hdel.
  eexists. split; [reflexivity|]. rewrite Hl4, Hd4. simpl.
  split; [|done]. by rewrite <- !app_assoc.
Qed.

(** C6: [Remove(name, false)] on an entry that exists (a directory, even
    one that is not empty) makes no recursive step: it clears the data
    sectors of the leaf and its header sector in the bitmap, takes the
    entry out of the containing directory, stores the bitmap and the
    directory, and returns [TRUE].  Every other sector, the sectors of
    the children among them, keeps its bit. *)
Theorem Remove_nonrecursive_keeps_children nm s s1 dirFile leaf f fm :
  GoDirectory nm s = Done (dirFile, Live leaf) s1 ->
  target dirFile s1 = Some f ->
  freeMap_open s fm ->
  let directory := Directory_FetchFrom f (disk s1) in
  let freeMap := Bitmap_FetchFrom fm NumSectors (disk s1) in
  let sec := Directory_Find leaf directory in
  let fileHdr := FileHeader_FetchFrom sec (disk s1) in
  let freeMap' := Bitmap_Clear sec (FileHeader_Deallocate fileHdr freeMap) in
  sec <> -1 ->
  exists s' directory',
    Remove nm false s = Done true s' /\
    Directory_Remove leaf directory = Some directory' /\
    log s' = log s1 ++ [EvDirFetch f; EvMapFetch fm; EvHdrFetch sec;
                        EvMapWrite freeMap' fm; EvDirWrite directory' f] /\
    disk s' = Directory_WriteBack directory' f (Bitmap_WriteBack freeMap' fm (disk s1)) /\
    forall k, k ∉ dataSectors fileHdr -> k <> sec ->
      Bitmap_Test k freeMap' = Bitmap_Test k freeMap.
Proof.
  intros Hgo Hf Hopen directory freeMap sec fileHdr freeMap' Hsec.
  destruct (GoDirectory_freeMap _ _ _ _ _ _ Hgo Hopen) as (Hfm & Hne & _).
  destruct (Directory_Find_Remove leaf directory Hsec) as [directory' Hrem].
  unfold Remove. erewrite mbind_Done by exact Hgo. simpl.
  erewrite mbind_Done by (by apply Directory_fetch_Done).
  erewrite mbind_Done by reflexivity.
  fold directory. fold sec.
  destruct (sec =? -1) eqn:Esec; [lia|].
  erewrite mbind_Done by reflexivity.
  erewrite mbind_Done by (apply Bitmap_fetch_Done; rewrite target_add_log; exact Hfm).
  simpl. fold freeMap.
  erewrite mbind_Done by reflexivity.
  match goal with
  | |- exists s' d', _ ?s2 = _ /\ _ =>
      destruct (Remove_tail_Done sec leaf directory directory' freeMap dirFile
                  true s2 f fm) as (s' & Hrun & Hlog & Hdisk);
        [by rewrite !target_add_log
        | simpl; by rewrite !target_add_log
        | exact Hrem |]
  end.
  exists s', directory'. split; [exact Hrun|]. split; [done|].
  rewrite Hlog, Hdisk. simpl. split; [by rewrite <- !app_assoc|]. split; [done|].
  intros k Hk Hks. unfold freeMap'.
  rewrite Bitmap_Test_Clear_ne by done. by apply Bitmap_Test_Deallocate.
Qed.

(** C5: [Remove(name, true)] on a leaf that exists and names a
    directory first runs [RecRemove] on the in-memory bitmap, then clears
    the data sectors of the leaf and its header sector in the bitmap that
    [RecRemove] left, and takes the entry out of the containing
    directory.  The bitmap and the directory are stored whatever flag
    [ok] the recursive step returned, and [Remove] returns that flag. *)
Theorem Remove_recursive_directory nm s s1 dirFile leaf f fm ok subDir' freeMap1 :
  GoDirectory nm s = Done (dirFile, Live leaf) s1 ->
  target dirFile s1 = Some f ->
  freeMap_open s fm ->
  let directory := Directory_FetchFrom f (disk s1) in
  let freeMap := Bitmap_FetchFrom fm NumSectors (disk s1) in
  let sec := Directory_Find leaf directory in
  sec <> -1 ->
  IsDir leaf = true ->
  let subDirFile := mkOpenFile sec (FileHeader_FetchFrom sec (disk s1)) 0 (-1) in
  let subDir := Directory_FetchFrom subDirFile (disk s1) in
  Directory_RecRemove subDir freeMap (disk s1) = (ok, subDir', freeMap1) ->
  let d1 := Directory_WriteBack subDir' subDirFile (disk s1) in
  let fileHdr := FileHeader_FetchFrom sec d1 in
  let freeMap' := Bitmap_Clear sec (FileHeader_Deallocate fileHdr freeMap1) in
  exists s' directory',
    Remove nm true s = Done ok s' /\
    Directory_Remove leaf directory = Some directory' /\
    log s' = log s1 ++ [EvDirFetch f; EvMapFetch fm;
                        EvHdrFetch sec; EvDirFetch subDirFile;
                        EvRecRemove subDir freeMap; EvDirWrite subDir' subDirFile;
                        EvHdrFetch sec; EvMapWrite freeMap' fm;
                        EvDirWrite directory' f] /\
    disk s' = Directory_WriteBack directory' f (Bitmap_WriteBack freeMap' fm d1).
Proof.
  intros Hgo Hf Hopen directory freeMap sec Hsec Hdir subDirFile subDir Hrec
    d1 fileHdr freeMap'.
  destruct (GoDirectory_freeMap _ _ _ _ _ _ Hgo Hopen) as (Hfm & Hne & _).
  destruct (Directory_Find_Remove leaf directory Hsec) as [directory' Hrem].
  unfold Remove. erewrite mbind_Done by exact Hgo. simpl.
  erewrite mbind_Done by (by apply Directory_fetch_Done).
  erewrite mbind_Done by reflexivity.
  fold directory. fold sec.
  destruct (sec =? -1) eqn:Esec; [lia|].
  erewrite mbind_Done by reflexivity.
  erewrite mbind_Done by (apply Bitmap_fetch_Done; rewrite target_add_log; exact Hfm).
  simpl. fold freeMap. rewrite Hdir.
  erewrite mbind_Done by (apply recursive_step_Done; exact Hrec).
  match goal with
  | |- exists s' d', _ ?s2 = _ /\ _ =>
      destruct (Remove_tail_Done sec leaf directory directory' freeMap1 dirFile
                  ok s2 f fm) as (s' & Hrun & Hlog & Hdisk);
        [by rewrite !target_add_log, target_set_disk, !target_add_log
        | simpl; by rewrite !target_add_log, target_set_disk, !target_add_log
        | exact Hrem |]
  end.
  exists s', directory'. split; [exact Hrun|]. split; [done|].
  rewrite Hlog, Hdisk. simpl. split; [by rewrite <- !app_assoc | done].
Qed.

(** ** [Read], [Write], [Seek] and [Close] *)

(** C9: [Seek] returns a positive value for every position and every
    descriptor, and the file system is left exactly as it was. *)
Theorem Seek_is_a_stub (position fd : Z) s :
  exists r, Seek position fd s = Done r s /\ 0 < r.
Proof. exists 1. split; [reflexivity | lia]. Qed.

Lemma table_index_free fd s :
  slot_free (sysOpFileTable s) fd = true ->
  exists s', table_index fd s = Done NULL s' /\
    disk s' = disk s /\ heap s' = heap s /\ log s' = log s /\
    fdPosition s' = fdPosition s /\
    delete fd (sysOpFileTable s') = delete fd (sysOpFileTable s).
Proof.
  unfold slot_free, table_index.
  destruct (sysOpFileTable s !! fd) as [[a|]|] eqn:E; [done|..]; intros _.
  - by eexists.
  - eexists. split; [reflexivity|]. simpl. repeat split.
    by rewrite delete_insert_eq.
Qed.

Lemma table_index_bound fd s p :
  sysOpFileTable s !! fd = Some p -> table_index fd s = Done p s.
Proof. intros H. unfold table_index. by rewrite H. Qed.

(** C7: for a descriptor with no handle in the table, [Read] and
    [Write] return -1 (and touch neither the disk nor a handle); for a
    descriptor bound to a live handle they are the byte-range read and
    write of that handle and return what it returns. *)
Theorem Read_Write_by_descriptor (size : Z) (buf : list Z) (fd : Z) s :
  (slot_free (sysOpFileTable s) fd = true ->
   exists s', Read size fd s = Done (-1, []) s' /\
              Write buf size fd s = Done (-1) s' /\
              disk s' = disk s /\ heap s' = heap s /\ log s' = log s) /\
  (forall a f, sysOpFileTable s !! fd = Some (Some a) -> heap s !! a = Some f ->
     Read size fd s = OpenFile_read (Some a) size s /\
     Write buf size fd s = OpenFile_write (Some a) buf size s /\
     result (Read size fd) s = Some (OpenFile_Read f size (disk s)).1 /\
     result (Write buf size fd) s = Some (OpenFile_Write f buf size (disk s)).1.1).
Proof.
  split.
  - intros Hfree.
    destruct (table_index_free fd s Hfree) as (s' & Hidx & Hd & Hh & Hl & _).
    exists s'. unfold Read, Write, GetOpenFileTable.
    rewrite !(mbind_Done _ _ _ _ _ Hidx). done.
  - intros a f Htbl Hheap.
    pose proof (table_index_bound fd s _ Htbl) as Hidx.
    unfold Read, Write, GetOpenFileTable.
    rewrite !(mbind_Done _ _ _ _ _ Hidx). split; [done|]. split; [done|].
    unfold result, mbind, M_bind. rewrite Hidx.
    unfold OpenFile_read, OpenFile_write. simpl. rewrite Hheap.
    destruct (OpenFile_Read f size (disk s)) as [[n bytes] f'].
    destruct (OpenFile_Write f buf size (disk s)) as [[m f''] d']. done.
Qed.

Lemma Close_Done fd s :
  closable s fd ->
  Close fd s
  = Done 1 (set_heap
              (match sysOpFileTable s !! fd with
               | Some (Some a) => delete a (heap s)
               | _ => heap s
               end)
              (set_table (delete fd (sysOpFileTable s)) s)).
Proof.
  unfold closable, Close, GetOpenFileTable, table_index, mbind, M_bind,
    delete_OpenFile.
  destruct (sysOpFileTable s !! fd) as [[a|]|] eqn:E; simpl.
  - intros [f Hf]. by rewrite Hf.
  - done.
  - intros _. by rewrite delete_insert_eq.
Qed.

(** A round of the scan that probes a free slot grants it. *)
Lemma GetSysFd_loop_grants n i fd0 fd s :
  Z.rem (fd0 + i) SYS_MAX_OPEN_FILE_NUM = fd ->
  slot_free (sysOpFileTable s) fd = true ->
  exists s', GetSysFd_loop (S n) i fd0 s = Done (Some fd) s' /\
    fdPosition s' = fd + 1 /\ heap s' = heap s /\ disk s' = disk s.
Proof.
  intros Hprobe Hfree. simpl. rewrite Hprobe.
  destruct (table_index_free fd s Hfree) as (s' & Hidx & Hd & Hh & _).
  rewrite (mbind_Done _ _ _ _ _ Hidx). eexists. split; [reflexivity|]. done.
Qed.

(** [Close] takes the entry of the descriptor out of the table and
    deletes its handle, and returns 1.  On a descriptor that is absent
    or already closed it returns 1 as well and leaves the table as it
    is, so a second [Close] changes nothing.  After a [Close] the slot is
    free: a scan grants it in the round that probes it, if there is one
    (the scan that starts at the slot has one). *)
Theorem Close_frees_slot fd s :
  closable s fd ->
  let s' := after (Close fd) s in
  Close fd s = Done 1 s' /\
  sysOpFileTable s' = delete fd (sysOpFileTable s) /\
  (forall a, sysOpFileTable s !! fd = Some (Some a) -> heap s' = delete a (heap s)) /\
  (slot_free (sysOpFileTable s) fd = true -> heap s' = heap s) /\
  disk s' = disk s /\
  Close fd s' = Done 1 s' /\
  slot_free (sysOpFileTable s') fd = true /\
  (forall n i fd0, Z.rem (fd0 + i) SYS_MAX_OPEN_FILE_NUM = fd ->
     exists s'', GetSysFd_loop (S n) i fd0 s' = Done (Some fd) s'') /\
  (0 <= fd < SYS_MAX_OPEN_FILE_NUM ->
     exists s'', GetSysFd (set_fdPosition fd s') = Done (Some fd) s'').
Proof.
  intros Hc s'. pose proof (Close_Done fd s Hc) as Hrun.
  assert (Hs' : s' = set_heap
              (match sysOpFileTable s !! fd with
               | Some (Some a) => delete a (heap s)
               | _ => heap s
               end)
              (set_table (delete fd (sysOpFileTable s)) s))
    by (unfold s', after; by rewrite Hrun).
  clearbody s'. subst s'.
  assert (Hfree : slot_free
            (sysOpFileTable
               (set_heap
                  (match sysOpFileTable s !! fd with
                   | Some (Some a) => delete a (heap s)
                   | _ => heap s
                   end)
                  (set_table (delete fd (sysOpFileTable s)) s))) fd = true).
  { unfold slot_free. simpl. by rewrite lookup_delete_eq. }
  split; [done|]. split; [done|]. split.
  { intros a Ha. simpl. by rewrite Ha. }
  split.
  { unfold slot_free. simpl.
    by destruct (sysOpFileTable s !! fd) as [[a|]|]. }
  split; [done|]. split.
  { rewrite Close_Done.
    - simpl. rewrite lookup_delete_eq. unfold set_heap, set_table. simpl.
      by rewrite delete_delete_eq.
    - unfold closable. simpl. by rewrite lookup_delete_eq. }
  split; [done|]. split.
  - intros n i fd0 Hprobe.
    destruct (GetSysFd_loop_grants n i fd0 fd _ Hprobe Hfree) as (s'' & H & _).
    eauto.
  - intros Hrange. unfold GetSysFd.
    destruct (Z.to_nat SYS_MAX_OPEN_FILE_NUM) as [|n] eqn:En; [lia|].
    assert (Hp : Z.rem (fd + 0) SYS_MAX_OPEN_FILE_NUM = fd)
      by (rewrite Z.add_0_r; apply Z.rem_small; lia).
    match goal with
    | |- exists s'', GetSysFd_loop _ _ _ ?st = _ =>
        destruct (GetSysFd_loop_grants n 0 fd fd st Hp Hfree) as (s'' & H & _)
    end.
    exists s''. exact H.
Qed.

(** ** The descriptor scan [GetSysFd] *)

(** When every slot holds a handle the scan fails and changes nothing. *)
Lemma GetSysFd_loop_full n : forall i fd s,
  table_full (sysOpFileTable s) ->
  0 < SYS_MAX_OPEN_FILE_NUM -> 0 <= i -> 0 <= fd ->
  GetSysFd_loop n i fd s = Done None s.
Proof.
  induction n as [|n IH]; intros i fd s Hfull HN Hi Hfd; [done|].
  simpl.
  assert (Hb : 0 <= Z.rem (fd + i) SYS_MAX_OPEN_FILE_NUM < SYS_MAX_OPEN_FILE_NUM)
    by (apply Z.rem_bound_pos; lia).
  pose proof (Hfull _ Hb) as Hocc. unfold slot_free in Hocc.
  destruct (sysOpFileTable s !! Z.rem (fd + i) SYS_MAX_OPEN_FILE_NUM)
    as [[a|]|] eqn:E; [|done|done].
  rewrite (mbind_Done _ _ _ _ _ (table_index_bound _ _ _ E)).
  apply IH; [done|done|lia|lia].
Qed.

Lemma GetSysFd_full s :
  table_full (sysOpFileTable s) ->
  0 < SYS_MAX_OPEN_FILE_NUM -> 0 <= fdPosition s ->
  GetSysFd s = Done None s.
Proof. intros. unfold GetSysFd. by apply GetSysFd_loop_full. Qed.

(** X24: with a full table [Open] deletes the handle it has just opened
    and returns [NULL]; the table is left as it is. *)
Lemma Open_full_table nm s s1 dirFile leaf f :
  GoDirectory nm s = Done (dirFile, Live leaf) s1 ->
  target dirFile s1 = Some f ->
  IsDir leaf = false ->
  0 <= Directory_Find leaf (Directory_FetchFrom f (disk s1)) ->
  table_full (sysOpFileTable s) ->
  0 < SYS_MAX_OPEN_FILE_NUM -> 0 <= fdPosition s ->
  exists s2 s',
    delete_unless_root dirFile (add_log (EvDirFetch f) s1) = Done tt s2 /\
    Open nm s = Done NULL s' /\ heap s' = heap s2 /\
    sysOpFileTable s' = sysOpFileTable s.
Proof.
  intros Hgo Hf Hfile Hfound Hfull HN Hpos.
  pose proof (GoDirectory_reads _ _ _ _ Hgo) as (_ & _ & Hr & Ht & Hp & _).
  destruct (delete_unless_root_Done dirFile (add_log (EvDirFetch f) s1) f)
    as (s2 & Hdel & Hd2 & Hl2 & Hfm2 & _); [by rewrite target_add_log|].
  pose proof (delete_unless_root_reads _ _ _ _ Hdel) as (_ & _ & _ & Ht2 & Hp2 & _).
  simpl in Ht2, Hp2.
  exists s2. unfold Open. erewrite mbind_Done by exact Hgo. simpl.
  erewrite mbind_Done by (by apply Directory_fetch_Done).
  erewrite mbind_Done by exact Hdel.
  erewrite mbind_Done by reflexivity. rewrite Hfile.
  destruct (0 <=? Directory_Find leaf (Directory_FetchFrom f (disk s1))) eqn:E; [|lia].
  erewrite mbind_Done by reflexivity.
  erewrite mbind_Done by
    (apply GetSysFd_full; simpl; [by rewrite Ht2, Ht | done | by rewrite Hp2, Hp]).
  unfold mbind, M_bind, delete_OpenFile. simpl. rewrite lookup_insert_eq.
  eexists. split; [exact Hdel|]. split; [reflexivity|]. simpl.
  rewrite delete_fresh. split; [done|]. by rewrite Ht2, Ht.
Qed.

(** The probes of the scan are not consecutive: the loop adds the round
    number [i] to the slot it probed last, so the third probe is three
    slots after the first one.  With slots 0 and 1 bound and slots 2 and
    3 free, a scan from slot 0 grants 3, where a linear scan grants 2. *)
Lemma GetSysFd_skips_a_free_slot s a0 a1 :
  4 <= SYS_MAX_OPEN_FILE_NUM ->
  0 <= fdPosition s ->
  Z.rem (fdPosition s) SYS_MAX_OPEN_FILE_NUM = 0 ->
  sysOpFileTable s !! 0 = Some (Some a0) ->
  sysOpFileTable s !! 1 = Some (Some a1) ->
  slot_free (sysOpFileTable s) 2 = true ->
  slot_free (sysOpFileTable s) 3 = true ->
  spec_GetSysFd s = Some 2 /\ exists s', GetSysFd s = Done (Some 3) s'.
Proof.
  intros HN Hpos Hrem H0 H1 H2 H3.
  destruct (Z.to_nat SYS_MAX_OPEN_FILE_NUM) as [|[|[|n]]] eqn:En; [lia..|].
  split.
  - unfold spec_GetSysFd. rewrite En. cbn [spec_scan].
    rewrite <- Z.rem_mod_nonneg by lia. rewrite Hrem.
    rewrite (Z.mod_small (0 + 1)) by lia.
    rewrite (Z.mod_small (0 + 1 + 1)) by lia.
    unfold slot_free at 1. rewrite H0.
    unfold slot_free at 1. change (0 + 1) with 1. rewrite H1.
    change (1 + 1) with 2. by rewrite H2.
  - unfold GetSysFd. rewrite En.
    cbn [GetSysFd_loop]. rewrite Z.add_0_r, Hrem.
    rewrite (mbind_Done _ _ _ _ _ (table_index_bound _ _ _ H0)).
    rewrite (Z.rem_small (0 + (0 + 1))) by lia.
    rewrite (mbind_Done _ _ _ _ _ (table_index_bound _ _ _ H1)).
    rewrite (Z.rem_small (0 + (0 + 1) + (0 + 1 + 1))) by lia.
    destruct (table_index_free 3 s H3) as (s' & Hidx & _).
    change (0 + (0 + 1) + (0 + 1 + 1)) with 3.
    rewrite (mbind_Done _ _ _ _ _ Hidx). eauto.
Qed.

(** ** Path resolution *)

(** A component ["/"] sets the resolution to the root handle and loads
    the root directory. *)
Lemma GoDirectory_loop_root_marker rest n dirFile directory s r :
  target (directoryFile s) s = Some r ->
  GoDirectory_loop ("/" :: rest) n dirFile directory s
  = GoDirectory_loop rest Freed (directoryFile s)
      (Directory_FetchFrom r (disk s)) (add_log (EvDirFetch r) s).
Proof.
  intros Hr. simpl.
  erewrite mbind_Done by reflexivity.
  erewrite mbind_Done by (by apply Directory_fetch_Done). done.
Qed.

(** A directory component that is not found while components remain
    stops the machine. *)
Lemma GoDirectory_loop_missing_directory front rest n dirFile directory s :
  front <> "/"%string -> IsDir front = true ->
  Directory_Find front directory = -1 -> rest <> [] ->
  GoDirectory_loop (front :: rest) n dirFile directory s = AssertFailed.
Proof.
  intros Hne Hdir Hfind Hrest. simpl.
  apply String.eqb_neq in Hne. rewrite Hne, Hdir, Hfind. simpl.
  unfold mbind, M_bind, ASSERT. by rewrite bool_decide_eq_false_2.
Qed.

(** A file component that is not the last one stops the machine. *)
Lemma GoDirectory_loop_file_not_last front rest n dirFile directory s :
  front <> "/"%string -> IsDir front = false -> rest <> [] ->
  GoDirectory_loop (front :: rest) n dirFile directory s = AssertFailed.
Proof.
  intros Hne Hdir Hrest. simpl.
  apply String.eqb_neq in Hne. rewrite Hne, Hdir.
  unfold mbind, M_bind, ASSERT. by rewrite bool_decide_eq_false_2.
Qed.

(** On a queue without a root marker every handle opened on the way is
    released, except the one that is returned. *)
Lemma GoDirectory_loop_releases s0 pathQueue :
  Forall (fun c => c <> "/"%string) pathQueue ->
  is_Some (target (directoryFile s0) s0) ->
  forall n dirFile directory s dirFile' n' s',
  directoryFile s = directoryFile s0 ->
  exact_handles s0 s dirFile ->
  GoDirectory_loop pathQueue n dirFile directory s = Done (dirFile', n') s' ->
  exact_handles s0 s' dirFile'.
Proof.
  intros Hclean [r0 Hroot].
  induction Hclean as [|front rest Hfront Hclean IH];
    intros n dirFile directory s dirFile' n' s' Hr Hex; simpl.
  - by intros [= <- _ <-].
  - apply String.eqb_neq in Hfront. rewrite Hfront.
    destruct (IsDir front).
    + destruct (Directory_Find front directory =? -1).
      { intros H. apply mbind_inv in H as (u & s1 & Ha & [= <- _ <-]).
        by apply ASSERT_inv in Ha as [_ ->]. }
      destruct (bool_decide (rest = [])).
      { by intros [= <- _ <-]. }
      intros H. apply mbind_inv in H as (u & s1 & Hd & H).
      apply mbind_inv in H as (p' & s2 & Hn & H).
      apply mbind_inv in H as (d' & s3 & Hf & H).
      assert (Hs1 : heap s1 = heap s0 /\ directoryFile s1 = directoryFile s0).
      { revert Hd. unfold delete_unless_root, mbind, M_bind, get_directoryFile.
        destruct Hex as [[-> Hh]|(a & f & -> & Hnone & Hh)].
        - rewrite Hr. rewrite decide_True by done. by intros [= _ <-].
        - rewrite decide_False.
          2:{ rewrite Hr. intros E. rewrite <- E in Hroot. simpl in Hroot.
              congruence. }
          unfold delete_OpenFile. rewrite Hh, lookup_insert_eq.
          intros [= _ <-]. simpl. split; [|done].
          rewrite delete_insert_eq. by apply delete_id. }
      destruct Hs1 as [Hh1 Hr1].
      revert Hn. unfold new_OpenFile. intros [= <- <-].
      apply Directory_fetch_heap in Hf as [Hh3 Hr3]. simpl in Hh3, Hr3.
      eapply IH; [..|exact H].
      * congruence.
      * right. eexists _, _. split; [done|]. rewrite Hh3, Hh1.
        split; [apply fresh_heap_None | done].
    + intros H. apply mbind_inv in H as (u & s1 & Ha & [= <- _ <-]).
      by apply ASSERT_inv in Ha as [_ ->].
Qed.

(** For an absolute path with no empty component (the root marker is the
    first component and only that one), the handles alive after the
    resolution are those alive before it, and the handle returned. *)
Lemma GoDirectory_releases_intermediate nm rest s dirFile n s' :
  PreprocessPath nm = Some ("/"%string :: rest) ->
  Forall (fun c => c <> "/"%string) rest ->
  GoDirectory nm s = Done (dirFile, n) s' ->
  exact_handles s s' dirFile.
Proof.
  intros Hpath Hclean. unfold GoDirectory. rewrite Hpath.
  cbn [GoDirectory_loop]. simpl String.eqb.
  intros H. apply mbind_inv in H as (root & s1 & [= <- <-] & H).
  apply mbind_inv in H as (d' & s2 & Hf & H).
  assert (Hroot : is_Some (target (directoryFile s) s)).
  { revert Hf. unfold Directory_fetch.
    destruct (target (directoryFile s) s); [eauto | done]. }
  apply Directory_fetch_heap in Hf as [Hh Hr].
  eapply GoDirectory_loop_releases; [exact Hclean | exact Hroot | ..| exact H].
  - done.
  - left. done.
Qed.

End Properties.

(** ** The reference machine: evaluations *)

(** [PreprocessPath] keeps the separator at the end of each component;
    an empty component is a root marker. *)
Example PreprocessPath_splits :
  PreprocessPath "/a/b/c" = Some ["/"; "a/"; "b/"; "c"]%string /\
  PreprocessPath "/a//b" = Some ["/"; "a/"; "/"; "b"]%string /\
  PreprocessPath "" = Some [].
Proof. repeat split. Qed.

(** Resolving through a directory that does not exist stops the
    machine; a path that does not start at the root resolves to [NULL]. *)
Example GoDirectory_missing_intermediate :
  GoDirectory "/x/y" fs0 = AssertFailed /\
  result (GoDirectory "y") fs0 = Some (NULL, Live "y"%string).
Proof. split; vm_compute; reflexivity. Qed.

(** C3 (the code departs from the specification): on the reference machine, with
    descriptors 0 to 19 bound and the cursor at 20, closing 2 and 3 and
    opening ["/f"] grants descriptor 3 although the linear scan of the
    specification grants 2; closing 2 alone, [Open] returns [NULL] although slot
    2 is free. *)
Theorem Open_scan_is_not_linear :
  fdPosition fs_full = 20 /\
  slot_free (sysOpFileTable fs_two_free) 2 = true /\
  spec_GetSysFd fs_two_free = Some 2 /\
  granted_fd (Open "/f") fs_two_free = Some 3 /\
  slot_free (sysOpFileTable fs_one_free) 2 = true /\
  spec_GetSysFd fs_one_free = Some 2 /\
  result (Open "/f") fs_one_free = Some NULL.
Proof. vm_compute. repeat split. Qed.

(** C10 (the code departs from the specification): a root marker in the middle
    of a path resets the resolution to the root handle without releasing
    the handle of the directory reached before it.  On the reference
    machine, resolving ["/a//b"] returns the root handle and leaves the
    handle opened on ["a/"] (sector 5, address 2) alive, while resolving
    ["/a/b"] leaves alive only the handle it returns. *)
Theorem GoDirectory_root_marker_leaks :
  heap fs_a !! 2%nat = None /\
  (exists s', GoDirectory "/a//b" fs_a = Done (directoryFile fs_a, Live "b"%string) s' /\
     heap s' = <[2%nat := mkOpenFile 5 (mkFileHeader 0 0 []) 0 (-1)]> (heap fs_a)) /\
  (exists s', GoDirectory "/a/b" fs_a = Done (Some 2%nat, Live "b"%string) s' /\
     heap s' = <[2%nat := mkOpenFile 5 (mkFileHeader 0 0 []) 0 (-1)]> (heap fs_a)).
Proof.
  split; [vm_compute; reflexivity|].
  split.
  - exists (after (GoDirectory "/a//b") fs_a). vm_compute. split; reflexivity.
  - exists (after (GoDirectory "/a/b") fs_a). vm_compute. split; reflexivity.
Qed.

(** ** The reference machine: the theorems at work *)

(** Removing ["/g"], which does not exist, from a disk that holds ["/f"]. *)
Lemma Remove_not_found_witness :
  Directory_Find "g" (Directory_FetchFrom root_handle (disk fs_f)) = -1 /\
  exists s', Remove "/g" false fs_f = Done false s' /\
    disk s' = disk fs_f /\
    exists evs, log s' = log fs_f ++ evs /\ Forall quiet evs.
Proof.
  split; [vm_compute; reflexivity|].
  apply (Remove_not_found "/g" false fs_f (after (GoDirectory "/g") fs_f)
           (Some 1%nat) "g" root_handle); vm_compute; reflexivity.
Defined.

(** Creating a file of 8000 bytes, more than the 64 sectors can hold:
    the allocation of the data sectors fails. *)
Lemma Create_failure_keeps_disk_witness :
  exists s', Create "/big" 8000 fs_f = Done false s' /\
    disk s' = disk fs_f /\ no_write fs_f s'.
Proof.
  apply (Create_failure_keeps_disk "/big" 8000 fs_f (after (GoDirectory "/big") fs_f)
           (Some 1%nat) "big" root_handle map_handle).
  - vm_compute; reflexivity.
  - vm_compute; reflexivity.
  - split; [vm_compute; reflexivity | discriminate].
  - vm_compute. right; right; right. reflexivity.
Defined.

(** Creating the sub-directory ["/a/"] on the formatted disk: the header
    goes to sector 5 and the new file receives an empty table. *)
Lemma Create_success_writes_witness :
  exists s' hdr directory1 newDirFile freeMap2,
    Create "/a/" 0 fs0 = Done true s' /\
    log s' = [EvDirFetch root_handle; EvDirFetch root_handle; EvMapFetch map_handle;
              EvHdrWrite hdr 5; EvDirWrite directory1 root_handle;
              EvHdrFetch 5; EvDirWrite (new_Directory NumDirEntries) newDirFile;
              EvMapWrite freeMap2 map_handle].
Proof.
  pose (directory := Directory_FetchFrom root_handle (disk fs0)).
  pose (freeMap := Bitmap_FetchFrom map_handle NumSectors (disk fs0)).
  pose (freeMap1 := (Bitmap_FindAndSet freeMap).2).
  pose (directory1 := default directory (Directory_Add "a/" 5 directory)).
  pose (alloc := FileHeader_Allocate SectorSize freeMap1 0).
  pose (hdr := default (mkFileHeader 0 0 []) alloc.1).
  destruct (Create_success_writes "/a/" 0 fs0 (after (GoDirectory "/a/") fs0)
              (Some 1%nat) "a/" root_handle map_handle 5 freeMap1 directory1
              hdr alloc.2)
    as (s' & Hrun & Hlog & Hdisk).
  - vm_compute; reflexivity.
  - vm_compute; reflexivity.
  - split; [vm_compute; reflexivity | discriminate].
  - vm_compute; reflexivity.
  - vm_compute; reflexivity.
  - discriminate.
  - vm_compute; reflexivity.
  - vm_compute; reflexivity.
  - exists s'. eexists _, _, _, _. split; [exact Hrun|]. rewrite Hlog. reflexivity.
Defined.

(** Removing ["/a/"] and the file in it: the bitmap is again the bitmap
    of the formatted disk. *)
Lemma Remove_recursive_directory_witness :
  IsDir "a/" = true /\
  exists s', Remove "/a/" true fs_a = Done true s' /\
    Bitmap_FetchFrom map_handle NumSectors (disk s') = formatted_map.
Proof.
  split; [reflexivity|].
  pose (sub := mkOpenFile 5 (FileHeader_FetchFrom 5 (disk fs_a)) 0 (-1)).
  pose (r := Directory_RecRemove (Directory_FetchFrom sub (disk fs_a))
               (Bitmap_FetchFrom map_handle NumSectors (disk fs_a)) (disk fs_a)).
  destruct (Remove_recursive_directory "/a/" fs_a (after (GoDirectory "/a/") fs_a)
              (Some 1%nat) "a/" root_handle map_handle r.1.1 r.1.2 r.2)
    as (s' & directory' & Hrun & Hrem & Hlog & Hdisk).
  - vm_compute; reflexivity.
  - vm_compute; reflexivity.
  - split; [vm_compute; reflexivity | discriminate].
  - vm_compute. discriminate.
  - reflexivity.
  - vm_compute; reflexivity.
  - exists s'. split; [exact Hrun|]. rewrite Hdisk.
    vm_compute in Hrem. injection Hrem as <-. vm_compute. reflexivity.
Defined.

(** Removing ["/a/"] alone: sector 5 is free again, the sectors 6 and 7
    of the file ["/a/f"] stay allocated. *)
Lemma Remove_nonrecursive_keeps_children_witness :
  exists s', Remove "/a/" false fs_a = Done true s' /\
    Bitmap_Test 5 (Bitmap_FetchFrom map_handle NumSectors (disk s')) = false /\
    Bitmap_Test 6 (Bitmap_FetchFrom map_handle NumSectors (disk s')) = true /\
    Bitmap_Test 7 (Bitmap_FetchFrom map_handle NumSectors (disk s')) = true.
Proof.
  destruct (Remove_nonrecursive_keeps_children "/a/" fs_a (after (GoDirectory "/a/") fs_a)
              (Some 1%nat) "a/" root_handle map_handle)
    as (s' & directory' & Hrun & Hrem & Hlog & Hdisk & Hkeep).
  - vm_compute; reflexivity.
  - vm_compute; reflexivity.
  - split; [vm_compute; reflexivity | discriminate].
  - vm_compute. discriminate.
  - exists s'. split; [exact Hrun|]. rewrite Hdisk.
    vm_compute in Hrem. injection Hrem as <-. vm_compute. repeat split.
Defined.

(** Descriptor 7 of the empty table, and descriptor 2 of the full one. *)
Lemma Read_Write_by_descriptor_witness :
  result (Read 3 7) fs0 = Some (-1, []) /\
  result (Write [1; 2; 3] 3 7) fs0 = Some (-1) /\
  sysOpFileTable fs_full !! 2 = Some (Some 4%nat) /\
  result (Write [1; 2; 3] 3 2) fs_full = Some 3.
Proof.
  destruct (Read_Write_by_descriptor 3 [1; 2; 3] 7 fs0) as [Hfree _].
  destruct (Hfree eq_refl) as (s' & Hr & Hw & _).
  destruct (Read_Write_by_descriptor 3 [1; 2; 3] 2 fs_full) as [_ Hbound].
  destruct (Hbound 4%nat (mkOpenFile 5 (mkFileHeader 100 1 [6]) 0 2))
    as (_ & _ & _ & Hw2); [vm_compute; reflexivity | vm_compute; reflexivity |].
  split; [unfold result; by rewrite Hr|].
  split; [unfold result; by rewrite Hw|].
  split; [vm_compute; reflexivity|].
  rewrite Hw2. vm_compute. reflexivity.
Defined.

(** Closing descriptor 2 of the full table, twice. *)
Lemma Close_frees_slot_witness :
  closable fs_full 2 /\
  Close 2 fs_full = Done 1 fs_one_free /\
  sysOpFileTable fs_one_free !! 2 = None /\
  Close 2 fs_one_free = Done 1 fs_one_free /\
  exists s'', GetSysFd (set_fdPosition 2 fs_one_free) = Done (Some 2) s''.
Proof.
  assert (Hc : closable fs_full 2) by (vm_compute; eexists; reflexivity).
  split; [exact Hc|].
  destruct (Close_frees_slot 2 fs_full Hc)
    as (H1 & Ht & _ & _ & _ & H2 & _ & _ & H3).
  split; [exact H1|]. split; [vm_compute; reflexivity|]. split; [exact H2|].
  apply H3. cbn. lia.
Defined.

(** The recursive step can fail: the reference [RecRemove] gives up on
    the nine nested directories of [fs_deep].  [Remove] still stores the
    bitmap and the directory, with the entry taken out, and returns
    [FALSE]. *)
Lemma Remove_recursive_reports_failure :
  exists s', Remove "/a/" true fs_deep = Done false s' /\
    Directory_Find "a/" (Directory_FetchFrom root_handle (disk fs_deep)) = 5 /\
    Directory_Find "a/" (Directory_FetchFrom root_handle (disk s')) = -1 /\
    Bitmap_Test 5 (Bitmap_FetchFrom map_handle NumSectors (disk fs_deep)) = true /\
    Bitmap_Test 5 (Bitmap_FetchFrom map_handle NumSectors (disk s')) = false.
Proof.
  exists (after (Remove "/a/" true) fs_deep). vm_compute. repeat split.
Qed.

(** * The rest of the file *)

(** ** [IsDir] and [PreprocessPath] *)

Lemma append_cons c (s t : string) : String c s +:+ t = String c (s +:+ t).
Proof. reflexivity. Qed.

Lemma append_assoc (s1 s2 s3 : string) : (s1 +:+ s2) +:+ s3 = s1 +:+ (s2 +:+ s3).
Proof.
  induction s1 as [|c s1 IH]; [done|]. rewrite !append_cons. by f_equal.
Qed.

Lemma append_length (s1 s2 : string) :
  String.length (s1 +:+ s2) = (String.length s1 + String.length s2)%nat.
Proof.
  induction s1 as [|c s1 IH]; [done|]. rewrite append_cons. simpl. by f_equal.
Qed.

Lemma slash_free_append (s1 s2 : string) :
  slash_free (s1 +:+ s2) = slash_free s1 && slash_free s2.
Proof.
  induction s1 as [|c s1 IH]; [done|]. rewrite append_cons. simpl.
  rewrite IH. by rewrite andb_assoc.
Qed.

Lemma IsDir_append_slash (body : string) : IsDir (body +:+ "/") = true.
Proof.
  induction body as [|c body IH]; [done|].
  rewrite append_cons. simpl.
  destruct (body +:+ "/") eqn:E; [by destruct body | exact IH].
Qed.

Lemma IsDir_slash_free (c : string) : slash_free c = true -> IsDir c = false.
Proof.
  induction c as [|a c IH]; [done|]. simpl.
  intros [Ha Hc]%andb_true_iff. destruct c; [by apply negb_true_iff | by apply IH].
Qed.

(** X1: [IsDir] answers [TRUE] exactly on the names that end in ['/'];
    on the empty name the model answers [FALSE]. *)
Theorem IsDir_iff_trailing_slash (nm : string) :
  IsDir nm = true <-> exists body, nm = body +:+ "/".
Proof.
  split.
  - induction nm as [|c nm IH]; [done|]. simpl. destruct nm as [|c' nm'].
    + intros Hc%Ascii.eqb_eq. subst c. by exists ""%string.
    + intros H. destruct (IH H) as [body Hb]. exists (String c body).
      rewrite append_cons. by rewrite <- Hb.
  - intros [body ->]. apply IsDir_append_slash.
Qed.

Lemma PreprocessPath_from_components path : forall nm q,
  slash_free nm = true ->
  PreprocessPath_from path nm = Some q ->
  (path = EmptyString /\ q = []) \/
  (path <> EmptyString /\ components q /\ String.concat "" q = nm +:+ path /\
   Forall (fun c => (String.length c < NAME_SIZE)%nat) q).
Proof.
  induction path as [|c rest IH]; intros nm q Hnm; cbn [PreprocessPath_from].
  { intros [= <-]. by left. }
  intros H. right. split; [done|].
  destruct (Ascii.eqb c "/") eqn:Ec; cbn [orb] in H.
  - apply Ascii.eqb_eq in Ec. subst c.
    destruct (NAME_SIZE <=? String.length (nm +:+ "/"))%nat eqn:El; [done|].
    apply Nat.leb_gt in El.
    destruct (PreprocessPath_from rest "") as [q'|] eqn:Eq; [|done].
    injection H as <-.
    assert (Hd : dir_component (nm +:+ "/")) by (by exists nm).
    destruct (IH "" q' eq_refl Eq) as [[-> ->]|(Hne & Hc & Hcat & Hlen)].
    + split; [apply components_dir; [done | constructor]|].
      split; [done | by apply Forall_cons].
    + split; [by apply components_dir|]. split; [|by apply Forall_cons].
      destruct q' as [|c' q'']; [by inversion Hc; destruct rest|].
      change (String.concat "" ((nm +:+ "/") :: c' :: q''))
        with ((nm +:+ "/") +:+ "" +:+ String.concat "" (c' :: q'')).
      rewrite Hcat. change ("" +:+ rest) with rest.
      by rewrite append_assoc.
  - assert (Hnm' : slash_free (nm +:+ String c "") = true).
    { rewrite slash_free_append, Hnm. simpl. by rewrite Ec. }
    destruct rest as [|c' rest'].
    + destruct (NAME_SIZE <=? String.length (nm +:+ String c ""))%nat eqn:El;
        [done|].
      apply Nat.leb_gt in El. injection H as <-.
      split; [|split; [done | by apply Forall_cons]].
      apply components_file. split; [by destruct nm | done].
    + destruct (IH _ _ Hnm' H) as [[? _]|(_ & Hc & Hcat & Hlen)]; [done|].
      split; [done|]. split; [|done].
      rewrite Hcat, append_assoc. done.
Qed.

(** X2: the queue that [PreprocessPath] builds, read in order, spells
    the path: no character is lost, added or moved. *)
Theorem PreprocessPath_concat path q :
  PreprocessPath path = Some q -> String.concat "" q = path.
Proof.
  intros H. unfold PreprocessPath in H.
  destruct (PreprocessPath_from_components path "" q eq_refl H)
    as [[-> ->]|(_ & _ & Hcat & _)]; [done | exact Hcat].
Qed.

(** X3: every component of the queue but the last is a directory
    component (a run without ['/'] closed by one ['/']), the last one may
    be a file component (not empty, without ['/']); each fits its buffer
    of [NAME_SIZE] bytes with the terminating zero. *)
Theorem PreprocessPath_components path q :
  PreprocessPath path = Some q ->
  components q /\ Forall (fun c => (String.length c < NAME_SIZE)%nat) q.
Proof.
  intros H. unfold PreprocessPath in H.
  destruct (PreprocessPath_from_components path "" q eq_refl H)
    as [[-> ->]|(_ & Hc & _ & Hl)]; [by split; constructor | done].
Qed.

Lemma PreprocessPath_from_short path : forall nm,
  (String.length nm + String.length path < NAME_SIZE)%nat ->
  is_Some (PreprocessPath_from path nm).
Proof.
  induction path as [|c rest IH]; intros nm Hlen; cbn [PreprocessPath_from];
    [eauto|].
  cbn [String.length] in Hlen.
  assert (Hl : (String.length (nm +:+ String c "") = String.length nm + 1)%nat)
    by (by rewrite append_length).
  destruct (Ascii.eqb c "/" || match rest with "" => true | _ => false end)%string.
  - rewrite (proj2 (Nat.leb_gt _ _)) by lia.
    destruct (IH ""%string) as [q Hq]; [cbn [String.length]; lia|].
    rewrite Hq. simpl. eauto.
  - apply IH. lia.
Qed.

(** X4: a path shorter than [NAME_SIZE] characters is always split; the
    buffer of a component can only overrun on longer paths. *)
Theorem PreprocessPath_short_path path :
  (String.length path < NAME_SIZE)%nat -> is_Some (PreprocessPath path).
Proof. intros H. apply PreprocessPath_from_short. cbn [String.length]. lia. Qed.

(** ** Path resolution on the queues of [PreprocessPath] *)

Section Coverage.
Context `{C : Collaborators}.

Implicit Types (s : FileSystem) (p dirFile : ptr) (nm leaf : string).

Lemma mbind_assert_inv {A B} (c : M A) (k : A -> M B) s :
  (c ≫= k) s = AssertFailed ->
  c s = AssertFailed \/ exists a s', c s = Done a s' /\ k a s' = AssertFailed.
Proof.
  unfold mbind, M_bind. destruct (c s) as [a s'| |]; [eauto | eauto | done].
Qed.

Lemma Directory_fetch_no_assert p s : Directory_fetch p s <> AssertFailed.
Proof. unfold Directory_fetch. by destruct (target p s). Qed.

Lemma delete_unless_root_no_assert p s : delete_unless_root p s <> AssertFailed.
Proof.
  unfold delete_unless_root, mbind, M_bind, get_directoryFile, delete_OpenFile.
  destruct (decide (p = directoryFile s)); [done|].
  destruct p as [a|]; [|done]. by destruct (heap s !! a).
Qed.

Lemma file_component_not_dir c :
  file_component c -> c <> "/"%string /\ IsDir c = false.
Proof.
  intros [Hne Hsf]. split; [by intros ->|]. by apply IsDir_slash_free.
Qed.

Lemma dir_component_IsDir c : dir_component c -> IsDir c = true.
Proof. intros [body [-> _]]. apply IsDir_append_slash. Qed.

(** The rounds of [GoDirectory_rounds] are rounds of the loop: the run
    from the queue they start on is the run from the queue they reach. *)
Lemma GoDirectory_rounds_loop q dirFile directory s q' dirFile' directory' s' :
  GoDirectory_rounds q dirFile directory s q' dirFile' directory' s' ->
  forall n, exists n',
    GoDirectory_loop q n dirFile directory s
    = GoDirectory_loop q' n' dirFile' directory' s'.
Proof.
  induction 1 as [q dirFile directory s
                 |rest dirFile directory s root s1 directory1 s2
                    q' dirFile' directory' s' Hroot Hfetch _ IH
                 |front rest dirFile directory s s1 dirFile1 s2 directory1 s3
                    q' dirFile' directory' s' Hne Hdir Hfind Hrest
                    Hdel Hnew Hfetch _ IH]; intros n.
  - by exists n.
  - destruct (IH Freed) as [n' Hn']. exists n'. rewrite <- Hn'.
    cbn [GoDirectory_loop]. change (String.eqb "/" "/") with true. cbn iota.
    rewrite (mbind_Done _ _ _ _ _ Hroot). by rewrite (mbind_Done _ _ _ _ _ Hfetch).
  - destruct (IH Freed) as [n' Hn']. exists n'. rewrite <- Hn'.
    cbn [GoDirectory_loop].
    apply String.eqb_neq in Hne. rewrite Hne, Hdir.
    apply Z.eqb_neq in Hfind. rewrite Hfind.
    rewrite bool_decide_eq_false_2 by done.
    rewrite (mbind_Done _ _ _ _ _ Hdel), (mbind_Done _ _ _ _ _ Hnew).
    by rewrite (mbind_Done _ _ _ _ _ Hfetch).
Qed.

Lemma GoDirectory_loop_assert q :
  components q ->
  forall n dirFile directory s,
  GoDirectory_loop q n dirFile directory s = AssertFailed ->
  exists pre c post dirFile' directory' s',
    q = pre ++ c :: post /\
    GoDirectory_rounds q dirFile directory s (c :: post) dirFile' directory' s' /\
    c <> "/"%string /\ dir_component c /\
    Directory_Find c directory' = -1 /\ post <> [].
Proof.
  induction 1 as [|c Hfile|c q Hdir Hq IH]; intros n dirFile directory s; simpl.
  - done.
  - destruct (file_component_not_dir c Hfile) as [Hne Hnd].
    apply String.eqb_neq in Hne. by rewrite Hne, Hnd.
  - destruct (String.eqb c "/") eqn:Ec.
    + apply String.eqb_eq in Ec. subst c.
      intros H. apply mbind_assert_inv in H as [H|(root & s1 & Hroot & H)];
        [done|].
      apply mbind_assert_inv in H as [H|(d1 & s2 & Hfetch & H)];
        [by apply Directory_fetch_no_assert in H|].
      destruct (IH _ _ _ _ H)
        as (pre & c' & post & df & d & s' & -> & Hr & Hc' & Hd' & Hf & Hpost).
      exists ("/"%string :: pre), c', post, df, d, s'.
      split_and!; try done. by eapply rounds_root.
    + apply String.eqb_neq in Ec. rewrite (dir_component_IsDir c Hdir).
      destruct (Directory_Find c directory =? -1) eqn:Ef.
      { apply Z.eqb_eq in Ef. intros H.
        exists [], c, q, dirFile, directory, s.
        split_and!; try done; [apply rounds_none|].
        intros ->. revert H. unfold mbind, M_bind, ASSERT.
        by rewrite bool_decide_eq_true_2. }
      apply Z.eqb_neq in Ef.
      destruct (bool_decide (q = [])) eqn:Eb; [done|].
      apply bool_decide_eq_false in Eb.
      intros H. apply mbind_assert_inv in H as [H|([] & s1 & Hdel & H)];
        [by apply delete_unless_root_no_assert in H|].
      apply mbind_assert_inv in H as [H|(p1 & s2 & Hnew & H)]; [done|].
      apply mbind_assert_inv in H as [H|(d1 & s3 & Hfetch & H)];
        [by apply Directory_fetch_no_assert in H|].
      destruct (IH _ _ _ _ H)
        as (pre & c' & post & df & d & s' & -> & Hr & Hc' & Hd' & Hf & Hpost).
      exists (c :: pre), c', post, df, d, s'.
      split_and!; try done.
      eapply rounds_sub; eauto using dir_component_IsDir.
Qed.

(** X5: the only assertion that can stop [GoDirectory] is the one of
    line 556.  If the resolution of [nm] stops on an assertion, the loop
    has come, by rounds that ran to their end, to a component [c] that
    ends in ['/'] and is not the root marker; the directory loaded at
    that point has no entry [c] ([Find] gave [-1]) and components are
    left after [c].  This is the round that fails [ASSERT] at line 556;
    the assertion on a file component (line 568) never fails, because
    [PreprocessPath] puts a file component last. *)
Theorem GoDirectory_assert_only_on_directory nm s :
  GoDirectory nm s = AssertFailed ->
  exists pre c post dirFile directory s1,
    PreprocessPath nm = Some (pre ++ c :: post) /\
    GoDirectory_rounds (pre ++ c :: post) NULL (new_Directory NumDirEntries) s
                       (c :: post) dirFile directory s1 /\
    c <> "/"%string /\ dir_component c /\ IsDir c = true /\
    Directory_Find c directory = -1 /\ post <> [].
Proof.
  unfold GoDirectory. destruct (PreprocessPath nm) as [q|] eqn:Eq; [|done].
  intros H.
  assert (Hc : components q).
  { unfold PreprocessPath in Eq.
    destruct (PreprocessPath_from_components nm "" q eq_refl Eq)
      as [[_ ->]|(_ & Hc & _)]; [constructor | done]. }
  destruct (GoDirectory_loop_assert q Hc _ _ _ _ H)
    as (pre & c & post & df & d & s1 & -> & Hr & Hne & Hd & Hf & Hpost).
  exists pre, c, post, df, d, s1.
  split_and!; try done. by apply dir_component_IsDir.
Qed.

Lemma Directory_FindIndex_new nm (n i : nat) :
  Directory_FindIndex nm (new_Directory n) i = None.
Proof.
  revert i. induction n as [|n IH]; intros i; [done|]. simpl. apply IH.
Qed.

Lemma Directory_Find_new nm (n : nat) : Directory_Find nm (new_Directory n) = -1.
Proof. unfold Directory_Find. by rewrite Directory_FindIndex_new. Qed.

Lemma first_component_root path c q :
  PreprocessPath path = Some (c :: q) ->
  starts_with_slash path = false -> c <> "/"%string.
Proof.
  intros Hq Hs ->. unfold PreprocessPath in Hq.
  destruct (PreprocessPath_from_components path "" _ eq_refl Hq)
    as [[_ ?]|(_ & _ & Hcat & _)]; [done|].
  change ("" +:+ path) with path in Hcat.
  destruct q as [|c' q']; simpl in Hcat; subst path; done.
Qed.

(** A path that does not start with ['/'] resolves to no handle. *)
Lemma GoDirectory_relative nm s r s' :
  starts_with_slash nm = false ->
  GoDirectory nm s = Done r s' -> r.1 = NULL /\ s' = s.
Proof.
  intros Hs. unfold GoDirectory.
  destruct (PreprocessPath nm) as [[|c q]|] eqn:Eq; [|..|done].
  { simpl. by intros [= <- <-]. }
  pose proof (first_component_root _ _ _ Eq Hs) as Hne.
  apply String.eqb_neq in Hne. cbn [GoDirectory_loop].
  rewrite Hne, Directory_Find_new. change (-1 =? -1) with true. cbn beta iota.
  destruct (IsDir c); intros H; apply mbind_inv in H as (u & s1 & Ha & [= <- <-]);
    by apply ASSERT_inv in Ha as [_ ->].
Qed.

(** X6: for a path that does not start with ['/'] (the empty path
    among them) [Create], [Open] and [Remove] never return: the
    resolution yields [NULL], and loading the directory through it is a
    fault, unless an assertion has stopped the machine before. *)
Theorem relative_path_never_returns nm (initialSize : Z) (recur : bool) s :
  starts_with_slash nm = false ->
  (forall r s', Create nm initialSize s <> Done r s') /\
  (forall r s', Open nm s <> Done r s') /\
  (forall r s', Remove nm recur s <> Done r s').
Proof.
  intros Hs.
  assert (Hnull : forall (r : ptr * cstr) s1,
            GoDirectory nm s = Done r s1 -> forall d s2,
            Directory_fetch r.1 s1 <> Done d s2).
  { intros r s1 Hgo d s2. destruct (GoDirectory_relative _ _ _ _ Hs Hgo) as [-> _].
    done. }
  repeat split; intros r s' H.
  - unfold Create in H. apply mbind_inv in H as ([dirFile n] & s1 & Hgo & H).
    apply mbind_inv in H as (d & s2 & Hf & _). by apply (Hnull _ _ Hgo) in Hf.
  - unfold Open in H. apply mbind_inv in H as ([dirFile n] & s1 & Hgo & H).
    apply mbind_inv in H as (d & s2 & Hf & _). by apply (Hnull _ _ Hgo) in Hf.
  - unfold Remove in H. apply mbind_inv in H as ([dirFile n] & s1 & Hgo & H).
    apply mbind_inv in H as (d & s2 & Hf & _). by apply (Hnull _ _ Hgo) in Hf.
Qed.

(** ** The descriptor scan, round by round *)

(** [sysOpFileTable[fd]] may enter a [NULL] value; no slot changes from
    free to bound or back, and no binding changes. *)
Lemma table_index_inv fd s p s' :
  table_index fd s = Done p s' ->
  heap s' = heap s /\ disk s' = disk s /\ log s' = log s /\
  fdPosition s' = fdPosition s /\
  (forall k, slot_free (sysOpFileTable s') k = slot_free (sysOpFileTable s) k) /\
  (p = NULL <-> slot_free (sysOpFileTable s) fd = true).
Proof.
  unfold table_index, slot_free.
  destruct (sysOpFileTable s !! fd) as [q|] eqn:E.
  - intros [= <- <-]. repeat split; try done; by destruct q.
  - intros [= <- <-]. simpl. repeat split; try done.
    intros k. destruct (decide (fd = k)) as [<-|Hne].
    + rewrite lookup_insert_eq. unfold ptr in *. by rewrite E.
    + by rewrite lookup_insert_ne.
Qed.

Lemma GetSysFd_loop_inv n : forall i fd s r s',
  0 < SYS_MAX_OPEN_FILE_NUM -> 0 <= i -> 0 <= fd ->
  GetSysFd_loop n i fd s = Done r s' ->
  heap s' = heap s /\ disk s' = disk s /\ log s' = log s /\
  (forall k, slot_free (sysOpFileTable s') k = slot_free (sysOpFileTable s) k) /\
  match r with
  | Some g => 0 <= g < SYS_MAX_OPEN_FILE_NUM /\
              slot_free (sysOpFileTable s) g = true /\ fdPosition s' = g + 1
  | None => fdPosition s' = fdPosition s
  end.
Proof.
  induction n as [|n IH]; intros i fd s r s' HN Hi Hfd; simpl.
  { by intros [= <- <-]. }
  intros H. apply mbind_inv in H as (p & s1 & Hidx & H).
  pose proof (Z.rem_bound_pos (fd + i) SYS_MAX_OPEN_FILE_NUM ltac:(lia) HN) as Hb.
  apply table_index_inv in Hidx as (Hh & Hd & Hl & Hp & Hsf & Hnull).
  destruct p as [a|].
  - apply IH in H as (Hh' & Hd' & Hl' & Hsf' & Hr); [|lia..].
    split_and!; [congruence..| |].
    + intros k. by rewrite Hsf', Hsf.
    + destruct r as [g|]; [|congruence].
      destruct Hr as (Hg & Hfree & Hpos). by rewrite <- Hsf.
  - injection H as <- <-. simpl. split_and!; [done..|lia|lia| |done].
    by apply Hnull.
Qed.

(** X7: a descriptor that [GetSysFd] grants is in the range of the
    table and names a slot that was free; the cursor is left one past the
    descriptor; no handle and no binding of the table is touched. *)
Theorem GetSysFd_grants_only_free_slots s fd s' :
  0 < SYS_MAX_OPEN_FILE_NUM -> 0 <= fdPosition s ->
  GetSysFd s = Done (Some fd) s' ->
  0 <= fd < SYS_MAX_OPEN_FILE_NUM /\
  slot_free (sysOpFileTable s) fd = true /\
  fdPosition s' = fd + 1 /\
  heap s' = heap s /\ disk s' = disk s /\ log s' = log s /\
  forall k, slot_free (sysOpFileTable s') k = slot_free (sysOpFileTable s) k.
Proof.
  intros HN Hpos H. unfold GetSysFd in H.
  apply GetSysFd_loop_inv in H as (Hh & Hd & Hl & Hsf & Hg & Hfree & Hp);
    [done|lia..].
Qed.

Lemma probe_offset_closed j : forall i,
  2 * probe_offset i j = (Z.of_nat j + 1) * (2 * i + Z.of_nat j).
Proof.
  induction j as [|j IH]; intros i; cbn [probe_offset].
  { lia. }
  specialize (IH (i + 1)). rewrite Nat2Z.inj_succ. nia.
Qed.

Lemma GetSysFd_loop_probes k : forall n i fd s,
  (k < n)%nat -> 0 < SYS_MAX_OPEN_FILE_NUM -> 0 <= i -> 0 <= fd ->
  (forall j, (j < k)%nat ->
     slot_free (sysOpFileTable s)
       ((fd + probe_offset i j) mod SYS_MAX_OPEN_FILE_NUM) = false) ->
  slot_free (sysOpFileTable s)
    ((fd + probe_offset i k) mod SYS_MAX_OPEN_FILE_NUM) = true ->
  exists s',
    GetSysFd_loop n i fd s
    = Done (Some ((fd + probe_offset i k) mod SYS_MAX_OPEN_FILE_NUM)) s'.
Proof.
  induction k as [|k IH]; intros n i fd s Hn HN Hi Hfd Hocc Hfree;
    (destruct n as [|n]; [lia|]).
  - cbn [probe_offset] in *.
    assert (Hrem : Z.rem (fd + i) SYS_MAX_OPEN_FILE_NUM
                   = (fd + i) mod SYS_MAX_OPEN_FILE_NUM)
      by (apply Z.rem_mod_nonneg; lia).
    destruct (GetSysFd_loop_grants n i fd _ s Hrem Hfree) as (s' & H & _).
    eauto.
  - cbn [GetSysFd_loop]. rewrite Z.rem_mod_nonneg by lia.
    pose proof (Hocc 0%nat ltac:(lia)) as H0. cbn [probe_offset] in H0.
    unfold slot_free in H0.
    destruct (sysOpFileTable s !! ((fd + i) mod SYS_MAX_OPEN_FILE_NUM))
      as [[a|]|] eqn:E; [|done|done].
    rewrite (mbind_Done _ _ _ _ _ (table_index_bound _ _ _ E)).
    pose proof (Z.mod_pos_bound (fd + i) SYS_MAX_OPEN_FILE_NUM HN) as Hb.
    assert (Heq : forall j,
              ((fd + i) mod SYS_MAX_OPEN_FILE_NUM + probe_offset (i + 1) j)
                mod SYS_MAX_OPEN_FILE_NUM
              = (fd + probe_offset i (S j)) mod SYS_MAX_OPEN_FILE_NUM).
    { intros j. cbn [probe_offset]. rewrite Zplus_mod_idemp_l. f_equal. lia. }
    destruct (IH n (i + 1) ((fd + i) mod SYS_MAX_OPEN_FILE_NUM) s)
      as (s' & H); [lia | done | lia | lia | | |].
    + intros j Hj. rewrite Heq. apply Hocc. lia.
    + by rewrite Heq.
    + exists s'. by rewrite <- Heq.
Qed.

(** X8: the order of the probes.  Round [k] of the scan probes the slot
    [(fdPosition + k (k + 1) / 2) mod SYS_MAX_OPEN_FILE_NUM]; the
    descriptor granted is the slot of the first round whose slot is
    free. *)
Theorem GetSysFd_probe_order s (k : nat) :
  0 < SYS_MAX_OPEN_FILE_NUM -> 0 <= fdPosition s ->
  (k < Z.to_nat SYS_MAX_OPEN_FILE_NUM)%nat ->
  (forall j, (j < k)%nat -> slot_free (sysOpFileTable s) (probe s j) = false) ->
  slot_free (sysOpFileTable s) (probe s k) = true ->
  (exists s', GetSysFd s = Done (Some (probe s k)) s') /\
  probe s k
  = (fdPosition s + Z.of_nat k * (Z.of_nat k + 1) / 2) mod SYS_MAX_OPEN_FILE_NUM.
Proof.
  intros HN Hpos Hk Hocc Hfree. split.
  - unfold GetSysFd. by apply GetSysFd_loop_probes.
  - unfold probe. f_equal. f_equal.
    pose proof (probe_offset_closed k 0) as Hc.
    apply Z.div_unique_exact; lia.
Qed.

(** ** What the operations leave alone *)

Lemma preserves_bind {A B} (R : FileSystem -> FileSystem -> Prop)
    (c : M A) (k : A -> M B) :
  (forall s1 s2 s3, R s1 s2 -> R s2 s3 -> R s1 s3) ->
  preserves R c -> (forall a, preserves R (k a)) -> preserves R (c ≫= k).
Proof.
  intros Htrans Hc Hk s b s'' H.
  apply mbind_inv in H as (a & s' & H1 & H2).
  eapply Htrans; [eapply Hc, H1 | eapply Hk, H2].
Qed.

Lemma preserves_ret {A} (R : FileSystem -> FileSystem -> Prop) (a : A) :
  (forall s, R s s) -> preserves R (ret a).
Proof. intros Hrefl s b s' [= _ <-]. apply Hrefl. Qed.

Lemma stores_nothing_refl s : stores_nothing s s.
Proof. split; [done|]. exists []. by rewrite app_nil_r. Qed.

Lemma stores_nothing_trans s1 s2 s3 :
  stores_nothing s1 s2 -> stores_nothing s2 s3 -> stores_nothing s1 s3.
Proof.
  intros [Hd (evs & Hl & Hq)] [Hd' (evs' & Hl' & Hq')]. split; [congruence|].
  exists (evs ++ evs'). split; [by rewrite Hl', Hl, app_assoc | by apply Forall_app].
Qed.

Lemma keeps_table_refl s : keeps_table s s.
Proof. done. Qed.

Lemma keeps_table_trans s1 s2 s3 :
  keeps_table s1 s2 -> keeps_table s2 s3 -> keeps_table s1 s3.
Proof. intros [? ?] [? ?]. split; congruence. Qed.

Lemma same_heap_refl s : same_heap s s.
Proof. done. Qed.

Lemma same_heap_trans s1 s2 s3 :
  same_heap s1 s2 -> same_heap s2 s3 -> same_heap s1 s3.
Proof. intros [? ?] [? ?]. split; congruence. Qed.

Lemma reads_only_stores_nothing s s' : reads_only s s' -> stores_nothing s s'.
Proof. intros H. split; [apply H | by apply reads_only_no_write]. Qed.

(** The primitive steps, one relation at a time. *)
Ltac run_primitive :=
  let s := fresh "s" in
  let a := fresh "a" in
  let s' := fresh "s'" in
  intros s a s';
  unfold Directory_fetch, Directory_write, Bitmap_fetch, Bitmap_write,
    FileHeader_fetch, FileHeader_write, RecRemove, use, get_directoryFile,
    get_freeMapFile, new_OpenFile, delete_OpenFile, ASSERT, SetFd, table_index;
  repeat case_match; try done; intros [= <- <-].

Ltac quiet_step :=
  split; [done|]; simpl;
  first [ exists []; split; [by rewrite app_nil_r | constructor]
        | eexists [_]; split; [reflexivity | by repeat constructor] ].

Lemma stores_nothing_Directory_fetch p : preserves stores_nothing (Directory_fetch p).
Proof. run_primitive; quiet_step. Qed.
Lemma stores_nothing_Bitmap_fetch p : preserves stores_nothing (Bitmap_fetch p).
Proof. run_primitive; quiet_step. Qed.
Lemma stores_nothing_FileHeader_fetch sec : preserves stores_nothing (FileHeader_fetch sec).
Proof. run_primitive; quiet_step. Qed.
Lemma stores_nothing_new_OpenFile sec : preserves stores_nothing (new_OpenFile sec).
Proof. run_primitive; quiet_step. Qed.
Lemma stores_nothing_delete_OpenFile p : preserves stores_nothing (delete_OpenFile p).
Proof. run_primitive; quiet_step. Qed.
Lemma stores_nothing_use n : preserves stores_nothing (use n).
Proof. run_primitive; quiet_step. Qed.
Lemma stores_nothing_SetFd p fd : preserves stores_nothing (SetFd p fd).
Proof. run_primitive; quiet_step. Qed.
Lemma stores_nothing_table_index fd : preserves stores_nothing (table_index fd).
Proof. run_primitive; quiet_step. Qed.
Lemma stores_nothing_get_directoryFile : preserves stores_nothing get_directoryFile.
Proof. run_primitive; quiet_step. Qed.

Lemma stores_nothing_delete_unless_root p :
  preserves stores_nothing (delete_unless_root p).
Proof.
  intros s a s' H. by apply delete_unless_root_reads, reads_only_stores_nothing in H.
Qed.

Lemma stores_nothing_GoDirectory nm : preserves stores_nothing (GoDirectory nm).
Proof.
  intros s a s' H. by apply GoDirectory_reads, reads_only_stores_nothing in H.
Qed.

Lemma stores_nothing_GetSysFd_loop n : forall i fd,
  preserves stores_nothing (GetSysFd_loop n i fd).
Proof.
  induction n as [|n IH]; intros i fd; simpl.
  - apply preserves_ret, stores_nothing_refl.
  - apply preserves_bind;
      [apply stores_nothing_trans | apply stores_nothing_table_index |].
    intros [a|]; [apply IH|]. intros s r s' [= _ <-]. quiet_step.
Qed.

Lemma stores_nothing_GetSysFd : preserves stores_nothing GetSysFd.
Proof. intros s r s'. apply stores_nothing_GetSysFd_loop. Qed.

Create HintDb quiet_steps.
#[local] Hint Resolve stores_nothing_Directory_fetch stores_nothing_Bitmap_fetch
  stores_nothing_FileHeader_fetch stores_nothing_new_OpenFile
  stores_nothing_delete_OpenFile stores_nothing_use stores_nothing_SetFd
  stores_nothing_table_index stores_nothing_get_directoryFile
  stores_nothing_delete_unless_root stores_nothing_GoDirectory
  stores_nothing_GetSysFd : quiet_steps.

(** Walks through the binds and branches of an operation. *)
Ltac walk trans refl db :=
  repeat first
    [ apply preserves_ret; exact refl
    | solve [eauto with db]
    | apply preserves_bind; [exact trans | | intros; cbv beta]
    | match goal with
      | |- preserves _ (match ?x with _ => _ end) => destruct x
      end ].

(** X9: [Open] stores nothing: whatever it returns, the disk is what it
    was and no header, directory, bitmap or file content was written. *)
Theorem Open_stores_nothing nm s r s' :
  Open nm s = Done r s' -> disk s' = disk s /\ no_write s s'.
Proof.
  revert s r s'. change (preserves stores_nothing (Open nm)). unfold Open.
  walk stores_nothing_trans stores_nothing_refl quiet_steps.
Qed.

Lemma keeps_table_Directory_fetch p : preserves keeps_table (Directory_fetch p).
Proof. by run_primitive. Qed.
Lemma keeps_table_Directory_write d p : preserves keeps_table (Directory_write d p).
Proof. by run_primitive. Qed.
Lemma keeps_table_Bitmap_fetch p : preserves keeps_table (Bitmap_fetch p).
Proof. by run_primitive. Qed.
Lemma keeps_table_Bitmap_write b p : preserves keeps_table (Bitmap_write b p).
Proof. by run_primitive. Qed.
Lemma keeps_table_FileHeader_fetch sec : preserves keeps_table (FileHeader_fetch sec).
Proof. by run_primitive. Qed.
Lemma keeps_table_FileHeader_write h sec : preserves keeps_table (FileHeader_write h sec).
Proof. by run_primitive. Qed.
Lemma keeps_table_RecRemove d b : preserves keeps_table (RecRemove d b).
Proof. by run_primitive. Qed.
Lemma keeps_table_new_OpenFile sec : preserves keeps_table (new_OpenFile sec).
Proof. by run_primitive. Qed.
Lemma keeps_table_delete_OpenFile p : preserves keeps_table (delete_OpenFile p).
Proof. by run_primitive. Qed.
Lemma keeps_table_use n : preserves keeps_table (use n).
Proof. by run_primitive. Qed.
Lemma keeps_table_get_freeMapFile : preserves keeps_table get_freeMapFile.
Proof. by run_primitive. Qed.

Lemma keeps_table_delete_unless_root p : preserves keeps_table (delete_unless_root p).
Proof.
  intros s a s' H. apply delete_unless_root_reads in H as (_ & _ & _ & ? & ? & _).
  by split.
Qed.

Lemma keeps_table_GoDirectory nm : preserves keeps_table (GoDirectory nm).
Proof.
  intros s a s' H. apply GoDirectory_reads in H as (_ & _ & _ & ? & ? & _).
  by split.
Qed.

Create HintDb table_steps.
#[local] Hint Resolve keeps_table_Directory_fetch keeps_table_Directory_write
  keeps_table_Bitmap_fetch keeps_table_Bitmap_write keeps_table_FileHeader_fetch
  keeps_table_FileHeader_write keeps_table_RecRemove keeps_table_new_OpenFile
  keeps_table_delete_OpenFile keeps_table_use keeps_table_get_freeMapFile
  keeps_table_delete_unless_root keeps_table_GoDirectory : table_steps.

(** X10: [Create] and [Remove] leave the descriptor table and the
    cursor alone; a file that is removed while it is open keeps its
    descriptor bound. *)
Theorem Create_Remove_keep_table nm (initialSize : Z) (recur : bool) s r s' :
  Create nm initialSize s = Done r s' \/ Remove nm recur s = Done r s' ->
  sysOpFileTable s' = sysOpFileTable s /\ fdPosition s' = fdPosition s.
Proof.
  assert (Hc : preserves keeps_table (Create nm initialSize)).
  { unfold Create. walk keeps_table_trans keeps_table_refl table_steps. }
  assert (Hr : preserves keeps_table (Remove nm recur)).
  { unfold Remove. walk keeps_table_trans keeps_table_refl table_steps. }
  intros [H|H]; [eapply Hc, H | eapply Hr, H].
Qed.

(** ** A slot that was closed and is not granted again *)

(** When every slot that the rounds probe holds a handle, the scan
    fails and changes nothing, whatever the other slots hold. *)
Lemma GetSysFd_loop_blocked n : forall i fd s,
  0 < SYS_MAX_OPEN_FILE_NUM -> 0 <= i -> 0 <= fd ->
  (forall j, (j < n)%nat ->
     slot_free (sysOpFileTable s)
       ((fd + probe_offset i j) mod SYS_MAX_OPEN_FILE_NUM) = false) ->
  GetSysFd_loop n i fd s = Done None s.
Proof.
  induction n as [|n IH]; intros i fd s HN Hi Hfd Hocc; [done|].
  cbn [GetSysFd_loop]. rewrite Z.rem_mod_nonneg by lia.
  pose proof (Hocc 0%nat ltac:(lia)) as H0. cbn [probe_offset] in H0.
  unfold slot_free in H0.
  destruct (sysOpFileTable s !! ((fd + i) mod SYS_MAX_OPEN_FILE_NUM))
    as [[a|]|] eqn:E; [|done|done].
  rewrite (mbind_Done _ _ _ _ _ (table_index_bound _ _ _ E)).
  pose proof (Z.mod_pos_bound (fd + i) SYS_MAX_OPEN_FILE_NUM HN) as Hb.
  apply IH; [done|lia|lia|].
  intros j Hj. specialize (Hocc (S j) ltac:(lia)). cbn [probe_offset] in Hocc.
  rewrite Zplus_mod_idemp_l.
  by replace (fd + i + probe_offset (i + 1) j) with (fd + (i + probe_offset (i + 1) j)) by lia.
Qed.

Lemma GetSysFd_blocked s :
  0 < SYS_MAX_OPEN_FILE_NUM -> 0 <= fdPosition s -> scan_blocked s ->
  GetSysFd s = Done None s.
Proof.
  intros HN Hpos Hb. unfold GetSysFd. apply GetSysFd_loop_blocked; [done|lia|done|].
  intros j Hj. apply Hb, Hj.
Qed.

Lemma scan_blocked_keeps s u :
  keeps_table s u -> scan_blocked s -> scan_blocked u.
Proof.
  intros [Ht Hp] Hb j Hj. unfold probe. rewrite Ht, Hp. by apply Hb.
Qed.


Lemma Open_blocked_inv nm s p s' :
  0 < SYS_MAX_OPEN_FILE_NUM -> 0 <= fdPosition s -> scan_blocked s ->
  Open nm s = Done p s' -> p = NULL /\ keeps_table s s'.
Proof.
  intros HN Hpos Hb H. unfold Open in H.
  apply mbind_inv in H as ([dirFile n] & s1 & Hgo & H).
  apply mbind_inv in H as (d & s2 & Hfetch & H).
  apply mbind_inv in H as (u & s3 & Hdel & H).
  apply mbind_inv in H as (leaf & s4 & Huse & H).
  apply keeps_table_GoDirectory in Hgo.
  apply keeps_table_Directory_fetch in Hfetch.
  apply keeps_table_delete_unless_root in Hdel.
  apply keeps_table_use in Huse.
  assert (K4 : keeps_table s s4) by eauto using keeps_table_trans.
  destruct (IsDir leaf); [by injection H as <- <-|].
  destruct (0 <=? Directory_Find leaf d); [|by injection H as <- <-].
  apply mbind_inv in H as (openFile & s5 & Hnew & H).
  apply mbind_inv in H as (r & s6 & Hget & H).
  apply keeps_table_new_OpenFile in Hnew.
  assert (K5 : keeps_table s s5) by eauto using keeps_table_trans.
  rewrite GetSysFd_blocked in Hget;
    [|done|by rewrite (proj2 K5)|by eapply scan_blocked_keeps].
  injection Hget as <- <-.
  apply mbind_inv in H as (u' & s7 & Hdel' & H). injection H as <- <-.
  apply keeps_table_delete_OpenFile in Hdel'.
  split; [done|]. eauto using keeps_table_trans.
Qed.

Lemma Opens_blocked nms : forall s ps s',
  0 < SYS_MAX_OPEN_FILE_NUM -> 0 <= fdPosition s -> scan_blocked s ->
  Opens nms s = Done ps s' -> Forall (fun p => p = NULL) ps /\ keeps_table s s'.
Proof.
  induction nms as [|nm rest IH]; intros s ps s' HN Hpos Hb H; cbn [Opens] in H.
  - injection H as <- <-. by split.
  - apply mbind_inv in H as (p & s1 & Hopen & H).
    apply mbind_inv in H as (others & s2 & Hrest & H). injection H as <- <-.
    apply Open_blocked_inv in Hopen as [-> K1]; [|done..].
    apply IH in Hrest as [Hall K2];
      [|done|by rewrite (proj2 K1)|by eapply scan_blocked_keeps].
    split; [by constructor | by eapply keeps_table_trans].
Qed.

(** With the scan blocked, [Open] of a file that exists deletes the
    handle it has just opened and returns [NULL]. *)
Lemma Open_blocked nm s s1 dirFile leaf f :
  GoDirectory nm s = Done (dirFile, Live leaf) s1 ->
  target dirFile s1 = Some f ->
  IsDir leaf = false ->
  0 <= Directory_Find leaf (Directory_FetchFrom f (disk s1)) ->
  0 < SYS_MAX_OPEN_FILE_NUM -> 0 <= fdPosition s -> scan_blocked s ->
  exists s', Open nm s = Done NULL s'.
Proof.
  intros Hgo Hf Hfile Hfound HN Hpos Hb.
  pose proof (keeps_table_GoDirectory _ _ _ _ Hgo) as K1.
  destruct (delete_unless_root_Done dirFile (add_log (EvDirFetch f) s1) f)
    as (s2 & Hdel & _); [by rewrite target_add_log|].
  pose proof (keeps_table_delete_unless_root _ _ _ _ Hdel) as K2.
  unfold Open. erewrite mbind_Done by exact Hgo. simpl.
  erewrite mbind_Done by (by apply Directory_fetch_Done).
  erewrite mbind_Done by exact Hdel.
  erewrite mbind_Done by reflexivity. rewrite Hfile.
  destruct (0 <=? Directory_Find leaf (Directory_FetchFrom f (disk s1))) eqn:E; [|lia].
  erewrite mbind_Done by reflexivity.
  assert (K : keeps_table s
            (add_log (EvHdrFetch (Directory_Find leaf (Directory_FetchFrom f (disk s1))))
               (set_heap (<[fresh (dom (heap s2)) :=
                    mkOpenFile (Directory_Find leaf (Directory_FetchFrom f (disk s1)))
                      (FileHeader_FetchFrom (Directory_Find leaf (Directory_FetchFrom f (disk s1))) (disk s2)) 0 (-1)]> (heap s2)) s2))).
  { destruct K1 as [? ?], K2 as [Ht2 Hp2]. simpl in Ht2, Hp2. split; simpl; congruence. }
  erewrite mbind_Done by
    (apply GetSysFd_blocked; [done|by rewrite (proj2 K)|by eapply scan_blocked_keeps]).
  unfold mbind, M_bind, delete_OpenFile. simpl. rewrite lookup_insert_eq.
  eauto.
Qed.

(** C8 (the code departs from the specification): [Close] takes the
    entry of the descriptor out of the table and returns 1, and the slot
    is free afterwards; but the slot need not be granted again.  When
    the table was full and the rounds of the scan, from where the cursor
    stands, do not probe the slot that was closed, [GetSysFd] returns
    [FALSE] although the slot is free: every [Open] of a file that
    exists deletes its handle and returns [NULL], and no sequence of
    later [Open] calls is granted the slot. *)
Theorem Close_slot_not_regranted fd s :
  0 < SYS_MAX_OPEN_FILE_NUM -> 0 <= fdPosition s ->
  0 <= fd < SYS_MAX_OPEN_FILE_NUM ->
  closable s fd ->
  table_full (sysOpFileTable s) ->
  (forall j, (j < Z.to_nat SYS_MAX_OPEN_FILE_NUM)%nat -> probe s j <> fd) ->
  let s' := after (Close fd) s in
  Close fd s = Done 1 s' /\
  sysOpFileTable s' = delete fd (sysOpFileTable s) /\
  fdPosition s' = fdPosition s /\
  slot_free (sysOpFileTable s') fd = true /\
  ~ table_full (sysOpFileTable s') /\
  GetSysFd s' = Done None s' /\
  (forall nm s1 dirFile leaf f,
     GoDirectory nm s' = Done (dirFile, Live leaf) s1 ->
     target dirFile s1 = Some f ->
     IsDir leaf = false ->
     0 <= Directory_Find leaf (Directory_FetchFrom f (disk s1)) ->
     exists s'', Open nm s' = Done NULL s'') /\
  (forall nms ps s'',
     Opens nms s' = Done ps s'' ->
     Forall (fun p => p = NULL) ps /\
     slot_free (sysOpFileTable s'') fd = true /\
     GetSysFd s'' = Done None s'').
Proof.
  intros HN Hpos Hfd Hc Hfull Hprobe s'.
  pose proof (Close_Done fd s Hc) as Hrun.
  assert (Hs' : Close fd s = Done 1 s') by (unfold s', after; by rewrite Hrun).
  assert (Ht : sysOpFileTable s' = delete fd (sysOpFileTable s))
    by (unfold s', after; by rewrite Hrun).
  assert (Hp : fdPosition s' = fdPosition s)
    by (unfold s', after; by rewrite Hrun).
  clearbody s'.
  assert (Hfree : slot_free (sysOpFileTable s') fd = true).
  { unfold slot_free. by rewrite Ht, lookup_delete_eq. }
  assert (Hb : scan_blocked s').
  { intros j Hj. unfold probe. rewrite Hp, Ht.
    specialize (Hprobe j Hj). unfold probe in Hprobe.
    unfold slot_free. rewrite lookup_delete_ne by done.
    apply Hfull, Z.mod_pos_bound, HN. }
  split_and!; try done.
  - intros Hfull'. specialize (Hfull' fd Hfd). congruence.
  - apply GetSysFd_blocked; [done|by rewrite Hp|done].
  - intros nm s1 dirFile leaf f Hgo Hf Hfile Hfound.
    eapply Open_blocked; eauto. by rewrite Hp.
  - intros nms ps s'' Hopens.
    apply Opens_blocked in Hopens as [Hall K]; [|done|by rewrite Hp|done].
    split; [done|]. split; [by rewrite (proj1 K)|].
    apply GetSysFd_blocked;
      [done|by rewrite (proj2 K), Hp|by eapply scan_blocked_keeps].
Qed.

(** ** [Open] *)

(** X11: [Open] on a name that ends in ['/'] (a directory, even one that
    exists) or on a name that is not in the resolved directory returns
    [NULL]; it grants no descriptor, opens no handle, and the only handle
    it releases is the one of the resolved directory. *)
Theorem Open_bad_path_returns_NULL nm s s1 dirFile leaf f :
  GoDirectory nm s = Done (dirFile, Live leaf) s1 ->
  target dirFile s1 = Some f ->
  IsDir leaf = true \/ Directory_Find leaf (Directory_FetchFrom f (disk s1)) < 0 ->
  exists s',
    delete_unless_root dirFile (add_log (EvDirFetch f) s1) = Done tt s' /\
    Open nm s = Done NULL s' /\
    sysOpFileTable s' = sysOpFileTable s /\ fdPosition s' = fdPosition s.
Proof.
  intros Hgo Hf Hbad.
  pose proof (GoDirectory_reads _ _ _ _ Hgo) as (_ & _ & _ & Ht & Hp & _).
  destruct (delete_unless_root_Done dirFile (add_log (EvDirFetch f) s1) f)
    as (s2 & Hdel & _); [by rewrite target_add_log|].
  pose proof (delete_unless_root_reads _ _ _ _ Hdel) as (_ & _ & _ & Ht2 & Hp2 & _).
  simpl in Ht2, Hp2.
  exists s2. split; [done|]. split; [|split; congruence].
  unfold Open. erewrite mbind_Done by exact Hgo. simpl.
  erewrite mbind_Done by (by apply Directory_fetch_Done).
  erewrite mbind_Done by exact Hdel.
  erewrite mbind_Done by reflexivity.
  destruct (IsDir leaf); [done|]. destruct Hbad as [?|Hlt]; [done|].
  by rewrite (proj2 (Z.leb_gt _ _) Hlt).
Qed.


(** ** The handles that [Create] and [Remove] leave behind *)

Lemma same_heap_Directory_fetch p : preserves same_heap (Directory_fetch p).
Proof. by run_primitive. Qed.
Lemma same_heap_Directory_write d p : preserves same_heap (Directory_write d p).
Proof. by run_primitive. Qed.
Lemma same_heap_Bitmap_fetch p : preserves same_heap (Bitmap_fetch p).
Proof. by run_primitive. Qed.
Lemma same_heap_Bitmap_write b p : preserves same_heap (Bitmap_write b p).
Proof. by run_primitive. Qed.
Lemma same_heap_FileHeader_fetch sec : preserves same_heap (FileHeader_fetch sec).
Proof. by run_primitive. Qed.
Lemma same_heap_FileHeader_write h sec : preserves same_heap (FileHeader_write h sec).
Proof. by run_primitive. Qed.
Lemma same_heap_use n : preserves same_heap (use n).
Proof. by run_primitive. Qed.
Lemma same_heap_get_freeMapFile : preserves same_heap get_freeMapFile.
Proof. by run_primitive. Qed.

Lemma same_heap_format_subdir sec D :
  preserves same_heap
    (newDirFile ← new_OpenFile sec;
     Directory_write D newDirFile ;; delete_OpenFile newDirFile).
Proof. intros s a s' H. rewrite format_subdir_Done in H. by injection H as _ <-. Qed.

Lemma same_heap_recursive_step sec b :
  preserves same_heap
    (subDirFile ← new_OpenFile sec;
     subDir ← Directory_fetch subDirFile;
     '(ok, subDir, freeMap) ← RecRemove subDir b;
     Directory_write subDir subDirFile ;;
     delete_OpenFile subDirFile ;;
     ret (true && ok, freeMap)).
Proof.
  intros s a s' H.
  destruct (Directory_RecRemove
              (Directory_FetchFrom
                 (mkOpenFile sec (FileHeader_FetchFrom sec (disk s)) 0 (-1)) (disk s))
              b (disk s)) as [[ok sd] fm] eqn:E.
  rewrite (recursive_step_Done sec b s ok sd fm E) in H. by injection H as _ <-.
Qed.

Create HintDb heap_steps.
#[local] Hint Resolve same_heap_Directory_fetch same_heap_Directory_write
  same_heap_Bitmap_fetch same_heap_Bitmap_write same_heap_FileHeader_fetch
  same_heap_FileHeader_write same_heap_use same_heap_get_freeMapFile
  same_heap_format_subdir same_heap_recursive_step : heap_steps.

Lemma delete_unless_root_released p s u s' :
  delete_unless_root p s = Done u s' ->
  heap s' = released p (directoryFile s) (heap s) /\
  directoryFile s' = directoryFile s.
Proof.
  unfold delete_unless_root, released, mbind, M_bind, get_directoryFile,
    delete_OpenFile.
  destruct (decide (p = directoryFile s)); [by intros [= _ <-]|].
  destruct p as [a|]; [|by intros [= _ <-]].
  destruct (heap s !! a); [by intros [= _ <-] | done].
Qed.

(** The heap after [Create]: a failure releases nothing, a success
    releases the handle of the resolved directory unless it is the root
    handle. *)
Lemma Create_heap_inv nm initialSize s b s' :
  Create nm initialSize s = Done b s' ->
  exists dirFile n s1,
    GoDirectory nm s = Done (dirFile, n) s1 /\
    heap s' = if b then released dirFile (directoryFile s1) (heap s1) else heap s1.
Proof.
  unfold Create. intros H.
  apply mbind_inv in H as ([dirFile n] & s1 & Hgo & H).
  exists dirFile, n, s1. split; [done|].
  apply mbind_inv in H as (directory & s2 & [Hh2 Hr2]%same_heap_Directory_fetch & H).
  apply mbind_inv in H as (leaf & s3 & [Hh3 Hr3]%same_heap_use & H).
  destruct (negb (Directory_Find leaf directory =? -1));
    [injection H as <- <-; congruence|].
  apply mbind_inv in H as (mapFile & s4 & [Hh4 Hr4]%same_heap_get_freeMapFile & H).
  apply mbind_inv in H as (freeMap & s5 & [Hh5 Hr5]%same_heap_Bitmap_fetch & H).
  destruct (Bitmap_FindAndSet freeMap) as [sec freeMap1].
  destruct (sec =? -1); [injection H as <- <-; congruence|].
  destruct (Directory_Add leaf sec directory) as [directory1|];
    [|injection H as <- <-; congruence].
  destruct (FileHeader_Allocate SectorSize freeMap1 initialSize) as [[hdr|] freeMap2];
    [|injection H as <- <-; congruence].
  apply mbind_inv in H as (u1 & t1 & [Hh6 Hr6]%same_heap_FileHeader_write & H).
  apply mbind_inv in H as (u2 & t2 & [Hh7 Hr7]%same_heap_Directory_write & H).
  apply mbind_inv in H as (u3 & t3 & Hblock & H).
  assert (Hb : same_heap t2 t3).
  { destruct (IsDir leaf); [by eapply same_heap_format_subdir|].
    injection Hblock as _ <-. apply same_heap_refl. }
  destruct Hb as [Hh8 Hr8].
  apply mbind_inv in H as (u4 & t4 & [Hh9 Hr9]%delete_unless_root_released & H).
  apply mbind_inv in H as (u5 & t5 & [Hh10 Hr10]%same_heap_Bitmap_write & H).
  injection H as <- <-. rewrite Hh10, Hh9. f_equal; congruence.
Qed.

Lemma GoDirectory_root_live nm rest s r s1 :
  PreprocessPath nm = Some ("/"%string :: rest) ->
  GoDirectory nm s = Done r s1 ->
  is_Some (target (directoryFile s) s).
Proof.
  intros Hpath. unfold GoDirectory. rewrite Hpath.
  cbn [GoDirectory_loop]. simpl String.eqb.
  intros H. apply mbind_inv in H as (root & s2 & [= <- <-] & H).
  apply mbind_inv in H as (d' & s3 & Hf & _). revert Hf. unfold Directory_fetch.
  destruct (target (directoryFile s) s); [eauto | done].
Qed.

Lemma released_exact_handles s s1 dirFile :
  exact_handles s s1 dirFile ->
  is_Some (target (directoryFile s) s) ->
  released dirFile (directoryFile s) (heap s1) = heap s.
Proof.
  intros [[-> Hh]|(a & f & -> & Hnone & Hh)] [r Hr]; unfold released.
  - by rewrite decide_True.
  - rewrite decide_False.
    2:{ intros E. rewrite <- E in Hr. simpl in Hr. congruence. }
    rewrite Hh, delete_insert_eq. by apply delete_id.
Qed.

(** X13: on an absolute path without an empty component, a [Create]
    that succeeds leaves on the heap exactly the handles that were there
    before the call. *)
Theorem Create_success_releases_handles nm rest (initialSize : Z) s s' :
  PreprocessPath nm = Some ("/"%string :: rest) ->
  Forall (fun c => c <> "/"%string) rest ->
  Create nm initialSize s = Done true s' ->
  heap s' = heap s.
Proof.
  intros Hpath Hclean H.
  apply Create_heap_inv in H as (dirFile & n & s1 & Hgo & ->).
  pose proof (GoDirectory_root_live _ _ _ _ _ Hpath Hgo) as Hroot.
  pose proof (GoDirectory_reads _ _ _ _ Hgo) as (_ & _ & -> & _).
  apply released_exact_handles; [|done].
  by eapply GoDirectory_releases_intermediate.
Qed.

(** X14: a [Create] that fails releases nothing.  When the resolved
    directory is not the root, its handle, opened by the resolution, is
    still on the heap after the call. *)
Theorem Create_failure_keeps_directory_handle nm rest (initialSize : Z)
    s s' s1 dirFile n :
  PreprocessPath nm = Some ("/"%string :: rest) ->
  Forall (fun c => c <> "/"%string) rest ->
  GoDirectory nm s = Done (dirFile, n) s1 ->
  dirFile <> directoryFile s ->
  Create nm initialSize s = Done false s' ->
  exists a f, dirFile = Some a /\ heap s !! a = None /\
    heap s' = <[a := f]> (heap s).
Proof.
  intros Hpath Hclean Hgo Hne H.
  apply Create_heap_inv in H as (dirFile' & n' & s1' & Hgo' & ->).
  rewrite Hgo in Hgo'. injection Hgo' as <- <- <-.
  destruct (GoDirectory_releases_intermediate _ _ _ _ _ _ Hpath Hclean Hgo)
    as [[? _]|(a & f & -> & Hnone & Hh)]; [done|].
  by exists a, f.
Qed.

(** The heap after [Remove]: when the leaf is not found nothing is
    released; otherwise the handle of the resolved directory is, unless
    it is the root handle. *)
Lemma Remove_heap_inv nm recur s b s' :
  Remove nm recur s = Done b s' ->
  exists dirFile leaf s1 f,
    GoDirectory nm s = Done (dirFile, Live leaf) s1 /\
    target dirFile s1 = Some f /\
    let found := negb (Directory_Find leaf (Directory_FetchFrom f (disk s1)) =? -1) in
    (found = false -> b = false) /\
    heap s' = if found then released dirFile (directoryFile s1) (heap s1)
              else heap s1.
Proof.
  unfold Remove. intros H.
  apply mbind_inv in H as ([dirFile n] & s1 & Hgo & H).
  apply mbind_inv in H as (directory & s2 & Hf & H).
  assert (Hdir : exists f, target dirFile s1 = Some f /\
            directory = Directory_FetchFrom f (disk s1)).
  { revert Hf. unfold Directory_fetch. destruct (target dirFile s1) as [f|]; [|done].
    intros [= <- _]. eauto. }
  destruct Hdir as (f & Htarget & ->).
  apply same_heap_Directory_fetch in Hf as [Hh2 Hr2].
  apply mbind_inv in H as (leaf & s3 & Hu & H).
  destruct n as [l|]; [|done]. injection Hu as -> <-.
  exists dirFile, leaf, s1, f. split; [done|]. split; [done|]. cbv zeta.
  destruct (Directory_Find leaf (Directory_FetchFrom f (disk s1)) =? -1).
  { injection H as <- <-. by split. }
  simpl. split; [done|].
  apply mbind_inv in H as (mapFile & s4 & [Hh4 Hr4]%same_heap_get_freeMapFile & H).
  apply mbind_inv in H as (freeMap & s5 & [Hh5 Hr5]%same_heap_Bitmap_fetch & H).
  apply mbind_inv in H as ([success freeMap1] & s6 & Hstep & H).
  assert (Hb : same_heap s5 s6).
  { destruct (recur && IsDir leaf); [by eapply same_heap_recursive_step|].
    injection Hstep as _ _ <-. apply same_heap_refl. }
  destruct Hb as [Hh6 Hr6].
  apply mbind_inv in H as (fileHdr & s7 & [Hh7 Hr7]%same_heap_FileHeader_fetch & H).
  apply mbind_inv in H as (u1 & t1 & [Hh8 Hr8]%same_heap_Bitmap_write & H).
  apply mbind_inv in H as (u2 & t2 & [Hh9 Hr9]%same_heap_Directory_write & H).
  apply mbind_inv in H as (u3 & t3 & [Hh10 Hr10]%delete_unless_root_released & H).
  injection H as _ <-. rewrite Hh10. f_equal; congruence.
Qed.

(** X15: on an absolute path without an empty component, a [Remove]
    that returns [TRUE], recursive or not, leaves on the heap exactly the
    handles that were there before the call. *)
Theorem Remove_success_releases_handles nm rest (recur : bool) s s' :
  PreprocessPath nm = Some ("/"%string :: rest) ->
  Forall (fun c => c <> "/"%string) rest ->
  Remove nm recur s = Done true s' ->
  heap s' = heap s.
Proof.
  intros Hpath Hclean H.
  apply Remove_heap_inv in H as (dirFile & leaf & s1 & f & Hgo & _ & Hfound & ->).
  destruct (negb _); [|by discriminate Hfound].
  pose proof (GoDirectory_root_live _ _ _ _ _ Hpath Hgo) as Hroot.
  pose proof (GoDirectory_reads _ _ _ _ Hgo) as (_ & _ & -> & _).
  apply released_exact_handles; [|done].
  by eapply GoDirectory_releases_intermediate.
Qed.

(** X16: a [Remove] that does not find the leaf returns at once and
    releases nothing.  When the resolved directory is not the root, its
    handle is still on the heap after the call. *)
Theorem Remove_not_found_keeps_directory_handle nm rest (recur : bool)
    s s1 dirFile leaf f :
  PreprocessPath nm = Some ("/"%string :: rest) ->
  Forall (fun c => c <> "/"%string) rest ->
  GoDirectory nm s = Done (dirFile, Live leaf) s1 ->
  target dirFile s1 = Some f ->
  Directory_Find leaf (Directory_FetchFrom f (disk s1)) = -1 ->
  dirFile <> directoryFile s ->
  exists s' a f',
    Remove nm recur s = Done false s' /\
    dirFile = Some a /\ heap s !! a = None /\ heap s' = <[a := f']> (heap s).
Proof.
  intros Hpath Hclean Hgo Hf Hfind Hne.
  assert (Hrun : Remove nm recur s = Done false (add_log (EvDirFetch f) s1)).
  { unfold Remove. erewrite mbind_Done by exact Hgo. simpl.
    erewrite mbind_Done by (by apply Directory_fetch_Done).
    erewrite mbind_Done by reflexivity. by rewrite Hfind. }
  destruct (GoDirectory_releases_intermediate _ _ _ _ _ _ Hpath Hclean Hgo)
    as [[? _]|(a & f' & -> & Hnone & Hh)]; [done|].
  by exists (add_log (EvDirFetch f) s1), a, f'.
Qed.

(** ** The constructor *)

Lemma Bitmap_Test_Mark (k : Z) (b : Bitmap) :
  0 <= k -> (Z.to_nat k < length b)%nat -> Bitmap_Test k (Bitmap_Mark k b) = true.
Proof.
  intros Hk Hlen. unfold Bitmap_Test, Bitmap_Mark, Bitmap in *.
  rewrite (proj2 (Z.leb_le 0 k) Hk). by rewrite list_lookup_insert_eq.
Qed.

Lemma Bitmap_Test_Mark_mono (k w : Z) (b : Bitmap) :
  Bitmap_Test k b = true -> Bitmap_Test k (Bitmap_Mark w b) = true.
Proof.
  unfold Bitmap_Test, Bitmap_Mark, Bitmap in *.
  destruct (0 <=? k) eqn:Ek; [|done]. destruct (0 <=? w) eqn:Ew; [|done].
  destruct (decide (Z.to_nat w = Z.to_nat k)) as [E|E].
  - rewrite E. destruct (b !! Z.to_nat k) eqn:Eb; [|done].
    rewrite list_lookup_insert_eq; [done|]. by eapply lookup_lt_Some.
  - by rewrite list_lookup_insert_ne.
Qed.

Lemma claimSectors_mono k n : forall (b : Bitmap) r b',
  claimSectors n b = (r, b') -> Bitmap_Test k b = true -> Bitmap_Test k b' = true.
Proof.
  induction n as [|n IH]; intros b r b'; simpl; [by intros [= _ <-]|].
  unfold Bitmap_FindAndSet.
  destruct (Bitmap_FindClear b 0) as [i|]; simpl.
  - destruct (i =? -1); [intros [= _ <-]; apply Bitmap_Test_Mark_mono|].
    destruct (claimSectors n (Bitmap_Mark i b)) as [[l|] b2] eqn:E;
      intros [= _ <-] Hk; eapply IH; eauto using Bitmap_Test_Mark_mono.
  - by intros [= _ <-].
Qed.

Lemma FileHeader_Allocate_mono k sz (b : Bitmap) size r b' :
  FileHeader_Allocate sz b size = (r, b') ->
  Bitmap_Test k b = true -> Bitmap_Test k b' = true.
Proof.
  unfold FileHeader_Allocate.
  destruct (claimSectors (Z.to_nat (divRoundUp size sz)) b) as [[l|] b2] eqn:E;
    intros [= _ <-]; by eapply claimSectors_mono.
Qed.

(** X17: formatting.  When the two allocations succeed the constructor
    stores the two headers in sectors 0 and 1, opens the two root files,
    and stores the bitmap and then an empty directory through them.
    Sectors 0 and 1 are allocated in the bitmap that is stored, the two
    root handles are open and distinct, and the handles that were open
    before are untouched. *)
Theorem FileSystem_new_formats (BitsInByte entrySize : Z) s mapHdr dirHdr
    (freeMap1 freeMap2 : Bitmap) :
  (2 <= NumSectors)%nat ->
  FileHeader_Allocate SectorSize
    (Bitmap_Mark DirectorySector (Bitmap_Mark FreeMapSector (new_Bitmap NumSectors)))
    (FreeMapFileSize BitsInByte) = (Some mapHdr, freeMap1) ->
  FileHeader_Allocate SectorSize freeMap1 (DirectoryFileSize entrySize)
    = (Some dirHdr, freeMap2) ->
  let d2 := FileHeader_WriteBack dirHdr DirectorySector
              (FileHeader_WriteBack mapHdr FreeMapSector (disk s)) in
  let mapFile := mkOpenFile FreeMapSector (FileHeader_FetchFrom FreeMapSector d2) 0 (-1) in
  let dirFile := mkOpenFile DirectorySector (FileHeader_FetchFrom DirectorySector d2) 0 (-1) in
  exists s',
    FileSystem_new BitsInByte entrySize true s = Done tt s' /\
    log s' = log s ++ [EvHdrWrite mapHdr FreeMapSector; EvHdrWrite dirHdr DirectorySector;
                       EvHdrFetch FreeMapSector; EvHdrFetch DirectorySector;
                       EvMapWrite freeMap2 mapFile;
                       EvDirWrite (new_Directory NumDirEntries) dirFile] /\
    Bitmap_Test FreeMapSector freeMap2 = true /\
    Bitmap_Test DirectorySector freeMap2 = true /\
    freeMap_open s' mapFile /\
    target (directoryFile s') s' = Some dirFile /\
    keeps_handles s s'.
Proof.
  intros HN Hmap Hdir d2 mapFile dirFile.
  pose proof (fresh_heap_None (heap s)) as Hfresh0.
  pose proof (fresh_heap_None
                (<[fresh (dom (heap s)) := mapFile]> (heap s))) as Hfresh1.
  assert (Hne : fresh (dom (<[fresh (dom (heap s)) := mapFile]> (heap s)))
                <> fresh (dom (heap s))).
  { intros E. rewrite E, lookup_insert_eq in Hfresh1. done. }
  unfold FileSystem_new. cbv zeta. rewrite Hmap, Hdir.
  unfold mbind, M_bind, ASSERT, FileHeader_write, new_OpenFile, set_freeMapFile,
    set_directoryFile, Bitmap_write, Directory_write.
  rewrite !bool_decide_eq_true_2 by eauto. simpl.
  fold d2. fold mapFile. fold dirFile.
  rewrite lookup_insert_ne by done. rewrite lookup_insert_eq. simpl.
  rewrite lookup_insert_eq.
  eexists. split; [reflexivity|]. simpl.
  split; [by rewrite <- !app_assoc|].
  assert (Hbits : Bitmap_Test FreeMapSector freeMap2 = true /\
                  Bitmap_Test DirectorySector freeMap2 = true).
  { split; eapply FileHeader_Allocate_mono; try exact Hdir;
      eapply FileHeader_Allocate_mono; try exact Hmap.
    - apply Bitmap_Test_Mark_mono, Bitmap_Test_Mark; [done|].
      unfold new_Bitmap, FreeMapSector. rewrite length_replicate.
      change (Z.to_nat 0) with 0%nat. lia.
    - apply Bitmap_Test_Mark; [done|].
      unfold Bitmap_Mark, new_Bitmap, FreeMapSector, DirectorySector, Bitmap.
      change (0 <=? 0) with true. cbv iota.
      rewrite length_insert, length_replicate.
      change (Z.to_nat 1) with 1%nat. lia. }
  split; [apply Hbits|]. split; [apply Hbits|].
  split.
  { split; simpl.
    - rewrite lookup_insert_ne by done. by rewrite lookup_insert_eq.
    - congruence. }
  split; [by rewrite lookup_insert_eq|].
  intros a f Ha. simpl.
  assert (Ha0 : fresh (dom (heap s)) <> a) by (intros <-; congruence).
  assert (Ha1 : fresh (dom (<[fresh (dom (heap s)) := mapFile]> (heap s))) <> a).
  { intros <-. rewrite lookup_insert_ne in Hfresh1 by done. congruence. }
  by rewrite !lookup_insert_ne.
Qed.

(** X18: formatting a device on which one of the two allocations fails
    stops the machine on the [ASSERT]; nothing has been stored. *)
Theorem FileSystem_new_format_asserts (BitsInByte entrySize : Z) s
    (freeMap1 : Bitmap) r :
  FileHeader_Allocate SectorSize
    (Bitmap_Mark DirectorySector (Bitmap_Mark FreeMapSector (new_Bitmap NumSectors)))
    (FreeMapFileSize BitsInByte) = (r, freeMap1) ->
  r = None \/ (FileHeader_Allocate SectorSize freeMap1 (DirectoryFileSize entrySize)).1 = None ->
  FileSystem_new BitsInByte entrySize true s = AssertFailed.
Proof.
  intros Hmap Hfail. unfold FileSystem_new. cbv zeta. rewrite Hmap.
  unfold mbind, M_bind, ASSERT.
  destruct r as [mapHdr|].
  - destruct Hfail as [?|Hfail]; [done|].
    rewrite bool_decide_eq_true_2 by eauto.
    destruct (FileHeader_Allocate SectorSize freeMap1 (DirectoryFileSize entrySize))
      as [[dirHdr|] freeMap2]; [done|].
    by rewrite bool_decide_eq_false_2 by (by intros [? ?]).
  - by rewrite bool_decide_eq_false_2 by (by intros [? ?]).
Qed.

(** X19: without formatting, the constructor only opens the two root
    files on sectors 0 and 1: the disk is what it was, the two handles
    are open and distinct. *)
Theorem FileSystem_new_opens_roots (BitsInByte entrySize : Z) s :
  let mapFile := mkOpenFile FreeMapSector (FileHeader_FetchFrom FreeMapSector (disk s)) 0 (-1) in
  let dirFile := mkOpenFile DirectorySector (FileHeader_FetchFrom DirectorySector (disk s)) 0 (-1) in
  exists s',
    FileSystem_new BitsInByte entrySize false s = Done tt s' /\
    disk s' = disk s /\
    log s' = log s ++ [EvHdrFetch FreeMapSector; EvHdrFetch DirectorySector] /\
    freeMap_open s' mapFile /\
    target (directoryFile s') s' = Some dirFile.
Proof.
  intros mapFile dirFile.
  pose proof (fresh_heap_None
                (<[fresh (dom (heap s)) := mapFile]> (heap s))) as Hfresh1.
  assert (Hne : fresh (dom (<[fresh (dom (heap s)) := mapFile]> (heap s)))
                <> fresh (dom (heap s))).
  { intros E. rewrite E, lookup_insert_eq in Hfresh1. done. }
  unfold FileSystem_new, mbind, M_bind, new_OpenFile, set_freeMapFile,
    set_directoryFile. simpl. fold mapFile. fold dirFile.
  eexists. split; [reflexivity|]. simpl. split; [done|].
  split; [by rewrite <- !app_assoc|]. split.
  - split; simpl.
    + rewrite lookup_insert_ne by done. by rewrite lookup_insert_eq.
    + congruence.
  - by rewrite lookup_insert_eq.
Qed.

(** ** The table of descriptors *)

(** X20: what [SetOpenFileTable] stores under a descriptor is what
    [GetOpenFileTable] finds there, the other descriptors keep their
    entries, and [Read] on the descriptor is the read of the handle. *)
Theorem SetOpenFileTable_GetOpenFileTable (fd size : Z) p s :
  exists s1,
    SetOpenFileTable fd p s = Done tt s1 /\
    GetOpenFileTable fd s1 = Done p s1 /\
    (forall fd', fd' <> fd -> sysOpFileTable s1 !! fd' = sysOpFileTable s !! fd') /\
    (is_Some p -> Read size fd s1 = OpenFile_read p size s1).
Proof.
  eexists. split; [reflexivity|].
  assert (Hidx : table_index fd (set_table (<[fd := p]> (sysOpFileTable s)) s)
                 = Done p (set_table (<[fd := p]> (sysOpFileTable s)) s)).
  { apply table_index_bound. simpl. by rewrite lookup_insert_eq. }
  split; [exact Hidx|]. split.
  - intros fd' Hne. simpl. by rewrite lookup_insert_ne.
  - intros [a ->]. unfold Read, GetOpenFileTable.
    by rewrite (mbind_Done _ _ _ _ _ Hidx).
Qed.

(** ** Path resolution: what it keeps *)

(** X21: [GoDirectory] only reads: the disk, the descriptor table, the
    cursor and the two root pointers are what they were, and the calls
    it makes neither store anything nor load the bitmap. *)
Theorem GoDirectory_is_read_only nm s r s' :
  GoDirectory nm s = Done r s' ->
  disk s' = disk s /\
  freeMapFile s' = freeMapFile s /\
  directoryFile s' = directoryFile s /\
  sysOpFileTable s' = sysOpFileTable s /\
  fdPosition s' = fdPosition s /\
  exists evs, log s' = log s ++ evs /\ Forall quiet evs.
Proof. apply GoDirectory_reads. Qed.

(** X22: [GoDirectory] releases no handle that was open before the
    call (the root handles among them), and the handle it returns is
    [NULL], the root handle, or a handle it opened and left open. *)
Theorem GoDirectory_keeps_open_handles nm s dirFile n s' :
  GoDirectory nm s = Done (dirFile, n) s' ->
  (forall a f, heap s !! a = Some f -> heap s' !! a = Some f) /\
  (dirFile = NULL \/
   dirFile = directoryFile s \/
   exists a, dirFile = Some a /\ heap s !! a = None /\ is_Some (heap s' !! a)).
Proof. apply GoDirectory_handles. Qed.

(** X23: on an absolute path without an empty component, the handles
    alive after the resolution are those alive before it and, when it is
    not the root handle, the handle returned: every intermediate handle
    has been released. *)
Theorem GoDirectory_clean_path_no_leak nm rest s dirFile n s' :
  PreprocessPath nm = Some ("/"%string :: rest) ->
  Forall (fun c => c <> "/"%string) rest ->
  GoDirectory nm s = Done (dirFile, n) s' ->
  (dirFile = directoryFile s /\ heap s' = heap s) \/
  (exists a f, dirFile = Some a /\ heap s !! a = None /\
               heap s' = <[a := f]> (heap s)).
Proof. apply GoDirectory_releases_intermediate. Qed.

(** A call that returns is a call that ends in the state [after] it. *)
Lemma Done_after {A} (c : M A) s (r : A) :
  result c s = Some r -> c s = Done r (after c s).
Proof. unfold result, after. destruct (c s); [by intros [= ->] | done | done]. Qed.

End Coverage.

(** ** The reference machine: the rest of the file at work *)

Lemma PreprocessPath_concat_witness :
  String.concat "" ["/"; "a/"; "b/"; "c"]%string = "/a/b/c"%string.
Proof. apply (PreprocessPath_concat "/a/b/c"). reflexivity. Defined.

Lemma PreprocessPath_components_witness :
  components ["/"; "a/"; "b/"; "c"]%string /\
  Forall (fun c => (String.length c < NAME_SIZE)%nat) ["/"; "a/"; "b/"; "c"]%string.
Proof. apply (PreprocessPath_components "/a/b/c"). reflexivity. Defined.

Lemma PreprocessPath_short_path_witness : is_Some (PreprocessPath "/a/b/c").
Proof. apply PreprocessPath_short_path. unfold NAME_SIZE. simpl. lia. Defined.

(** ["/x/y"] on the formatted disk: the root marker is a full round,
    then the directory ["x/"] is missing from the root directory while
    ["y"] is left in the queue. *)
Lemma GoDirectory_assert_only_on_directory_witness :
  GoDirectory "/x/y" fs0 = AssertFailed /\
  exists pre c post dirFile directory s1,
    PreprocessPath "/x/y" = Some (pre ++ c :: post) /\
    GoDirectory_rounds (pre ++ c :: post) NULL (new_Directory NumDirEntries) fs0
                       (c :: post) dirFile directory s1 /\
    c <> "/"%string /\ dir_component c /\ IsDir c = true /\
    Directory_Find c directory = -1 /\ post <> [].
Proof.
  assert (H : GoDirectory "/x/y" fs0 = AssertFailed) by reflexivity.
  split; [exact H|]. exact (GoDirectory_assert_only_on_directory "/x/y" fs0 H).
Defined.

Lemma relative_path_never_returns_witness :
  (forall r s', Create "y" 10 fs0 <> Done r s') /\
  (forall r s', Open "y" fs0 <> Done r s') /\
  (forall r s', Remove "y" false fs0 <> Done r s').
Proof. apply (relative_path_never_returns "y" 10 false fs0). reflexivity. Defined.

(** The scan of the table in which descriptors 2 and 3 are free. *)
Lemma GetSysFd_grants_only_free_slots_witness :
  GetSysFd fs_two_free = Done (Some 3) (after GetSysFd fs_two_free) /\
  slot_free (sysOpFileTable fs_two_free) 3 = true /\
  fdPosition (after GetSysFd fs_two_free) = 4.
Proof.
  assert (H : GetSysFd fs_two_free = Done (Some 3) (after GetSysFd fs_two_free))
    by (apply Done_after; vm_compute; reflexivity).
  split; [exact H|].
  assert (Hpos : fdPosition fs_two_free = 20) by (vm_compute; reflexivity).
  destruct (GetSysFd_grants_only_free_slots fs_two_free 3 _
              ltac:(cbn; lia) ltac:(rewrite Hpos; lia) H)
    as (_ & Hfree & Hcur & _).
  split; [exact Hfree | exact Hcur].
Defined.

Lemma GetSysFd_probe_order_witness :
  probe fs_two_free 2 = 3 /\
  exists s', GetSysFd fs_two_free = Done (Some 3) s'.
Proof.
  assert (Hpos : fdPosition fs_two_free = 20) by (vm_compute; reflexivity).
  split; [vm_compute; reflexivity|].
  destruct (GetSysFd_probe_order fs_two_free 2) as [[s' H] _].
  - cbn. lia.
  - rewrite Hpos. lia.
  - cbn. lia.
  - intros [|[|j]] Hj; [vm_compute; reflexivity.. | lia].
  - vm_compute; reflexivity.
  - exists s'. exact H.
Defined.

Lemma Open_stores_nothing_witness :
  Open "/f" fs_f = Done (Some 2%nat) (after (Open "/f") fs_f) /\
  disk (after (Open "/f") fs_f) = disk fs_f /\
  no_write fs_f (after (Open "/f") fs_f).
Proof.
  assert (H : Open "/f" fs_f = Done (Some 2%nat) (after (Open "/f") fs_f))
    by (apply Done_after; vm_compute; reflexivity).
  split; [exact H|]. exact (Open_stores_nothing "/f" fs_f _ _ H).
Defined.

(** ["/f"] is removed while the twenty descriptors are bound to it. *)
Lemma Create_Remove_keep_table_witness :
  Remove "/f" false fs_full = Done true (after (Remove "/f" false) fs_full) /\
  sysOpFileTable (after (Remove "/f" false) fs_full) = sysOpFileTable fs_full /\
  fdPosition (after (Remove "/f" false) fs_full) = fdPosition fs_full.
Proof.
  assert (H : Remove "/f" false fs_full
              = Done true (after (Remove "/f" false) fs_full))
    by (apply Done_after; vm_compute; reflexivity).
  split; [exact H|].
  exact (Create_Remove_keep_table "/f" 0 false fs_full true _ (or_intror H)).
Defined.

(** Opening the directory ["/a/"]. *)
Lemma Open_bad_path_returns_NULL_witness :
  IsDir "a/" = true /\
  exists s', Open "/a/" fs_a = Done NULL s' /\
    sysOpFileTable s' = sysOpFileTable fs_a /\ fdPosition s' = fdPosition fs_a.
Proof.
  split; [reflexivity|].
  destruct (Open_bad_path_returns_NULL "/a/" fs_a (after (GoDirectory "/a/") fs_a)
              (Some 1%nat) "a/" root_handle) as (s' & _ & H);
    [apply Done_after; vm_compute; reflexivity
    | vm_compute; reflexivity | by left |].
  exists s'. exact H.
Defined.


Lemma Create_success_releases_handles_witness :
  Create "/a/f" 100 (after (Create "/a/" 0) fs0)
  = Done true (after (Create "/a/f" 100) (after (Create "/a/" 0) fs0)) /\
  heap (after (Create "/a/f" 100) (after (Create "/a/" 0) fs0))
  = heap (after (Create "/a/" 0) fs0).
Proof.
  assert (H : Create "/a/f" 100 (after (Create "/a/" 0) fs0)
              = Done true (after (Create "/a/f" 100) (after (Create "/a/" 0) fs0)))
    by (apply Done_after; vm_compute; reflexivity).
  split; [exact H|].
  apply (Create_success_releases_handles "/a/f" ["a/"; "f"]%string 100 _ _
           eq_refl); [|exact H].
  repeat constructor; discriminate.
Defined.

(** ["/a/f"] exists already: the handle opened on ["a/"] stays. *)
Lemma Create_failure_keeps_directory_handle_witness :
  exists a f, heap fs_a !! a = None /\
    heap (after (Create "/a/f" 50) fs_a) = <[a := f]> (heap fs_a).
Proof.
  destruct (Create_failure_keeps_directory_handle "/a/f" ["a/"; "f"]%string 50
              fs_a (after (Create "/a/f" 50) fs_a)
              (after (GoDirectory "/a/f") fs_a) (Some 2%nat) (Live "f"%string)
              eq_refl)
    as (a & f & _ & Hnone & Hheap).
  - repeat constructor; discriminate.
  - apply Done_after; vm_compute; reflexivity.
  - discriminate.
  - apply Done_after; vm_compute; reflexivity.
  - exists a, f. split; [exact Hnone | exact Hheap].
Defined.

Lemma Remove_success_releases_handles_witness :
  Remove "/a/f" false fs_a = Done true (after (Remove "/a/f" false) fs_a) /\
  heap (after (Remove "/a/f" false) fs_a) = heap fs_a.
Proof.
  assert (H : Remove "/a/f" false fs_a
              = Done true (after (Remove "/a/f" false) fs_a))
    by (apply Done_after; vm_compute; reflexivity).
  split; [exact H|].
  apply (Remove_success_releases_handles "/a/f" ["a/"; "f"]%string false _ _
           eq_refl); [|exact H].
  repeat constructor; discriminate.
Defined.

(** ["/a/g"] does not exist: the handle opened on ["a/"] stays. *)
Lemma Remove_not_found_keeps_directory_handle_witness :
  exists s' a f',
    Remove "/a/g" false fs_a = Done false s' /\
    heap fs_a !! a = None /\ heap s' = <[a := f']> (heap fs_a).
Proof.
  destruct (Remove_not_found_keeps_directory_handle "/a/g" ["a/"; "g"]%string false
              fs_a (after (GoDirectory "/a/g") fs_a) (Some 2%nat) "g"
              (mkOpenFile 5 (mkFileHeader 0 0 []) 0 (-1)) eq_refl)
    as (s' & a & f' & Hrun & _ & Hnone & Hheap).
  - repeat constructor; discriminate.
  - apply Done_after; vm_compute; reflexivity.
  - vm_compute; reflexivity.
  - vm_compute; reflexivity.
  - discriminate.
  - exists s', a, f'. split; [exact Hrun|]. split; [exact Hnone | exact Hheap].
Defined.

(** Formatting the blank reference machine, with 8 bits in a byte and
    directory entries of 20 bytes: the two root handles are the handles
    of [fs0]. *)
Lemma FileSystem_new_formats_witness :
  exists s',
    FileSystem_new 8 20 true (blank blank_disk) = Done tt s' /\
    freeMap_open s' map_handle /\
    target (directoryFile s') s' = Some root_handle.
Proof.
  pose (a1 := FileHeader_Allocate SectorSize
                (Bitmap_Mark DirectorySector
                   (Bitmap_Mark FreeMapSector (new_Bitmap NumSectors)))
                (FreeMapFileSize 8)).
  pose (a2 := FileHeader_Allocate SectorSize a1.2 (DirectoryFileSize 20)).
  destruct (FileSystem_new_formats 8 20 (blank blank_disk) mapHdr dirHdr a1.2 a2.2)
    as (s' & Hrun & _ & _ & _ & Hopen & Hroot & _).
  - cbn. lia.
  - vm_compute; reflexivity.
  - vm_compute; reflexivity.
  - exists s'. split; [exact Hrun|]. split; [exact Hopen | exact Hroot].
Defined.

(** The machine that formatting yields has the disk, the handles and
    the root pointers of [fs0]. *)
Example FileSystem_new_gives_fs0 :
  disk (after (FileSystem_new 8 20 true) (blank blank_disk)) = disk fs0 /\
  heap (after (FileSystem_new 8 20 true) (blank blank_disk)) = heap fs0 /\
  freeMapFile (after (FileSystem_new 8 20 true) (blank blank_disk)) = freeMapFile fs0 /\
  directoryFile (after (FileSystem_new 8 20 true) (blank blank_disk)) = directoryFile fs0.
Proof. vm_compute. repeat split. Qed.

(** Directory entries of 1000 bytes do not fit the 64 sectors. *)
Lemma FileSystem_new_format_asserts_witness :
  FileSystem_new 8 1000 true (blank blank_disk) = AssertFailed.
Proof.
  pose (a1 := FileHeader_Allocate SectorSize
                (Bitmap_Mark DirectorySector
                   (Bitmap_Mark FreeMapSector (new_Bitmap NumSectors)))
                (FreeMapFileSize 8)).
  apply (FileSystem_new_format_asserts 8 1000 (blank blank_disk) a1.2 a1.1).
  - apply surjective_pairing.
  - right. vm_compute. reflexivity.
Defined.

Lemma GoDirectory_is_read_only_witness :
  disk (after (GoDirectory "/a/f") fs_a) = disk fs_a /\
  sysOpFileTable (after (GoDirectory "/a/f") fs_a) = sysOpFileTable fs_a.
Proof.
  destruct (GoDirectory_is_read_only "/a/f" fs_a (Some 2%nat, Live "f"%string)
              (after (GoDirectory "/a/f") fs_a))
    as (Hd & _ & _ & Ht & _); [apply Done_after; vm_compute; reflexivity|].
  by split.
Defined.

(** Even on ["/a//b"] the two root handles stay open. *)
Lemma GoDirectory_keeps_open_handles_witness :
  heap (after (GoDirectory "/a//b") fs_a) !! 0%nat = Some map_handle /\
  heap (after (GoDirectory "/a//b") fs_a) !! 1%nat = Some root_handle.
Proof.
  destruct (GoDirectory_keeps_open_handles "/a//b" fs_a (Some 1%nat)
              (Live "b"%string) (after (GoDirectory "/a//b") fs_a))
    as [Hk _]; [apply Done_after; vm_compute; reflexivity|].
  split; apply Hk; vm_compute; reflexivity.
Defined.

Lemma GoDirectory_clean_path_no_leak_witness :
  exists f, heap (after (GoDirectory "/a/f") fs_a) = <[2%nat := f]> (heap fs_a).
Proof.
  destruct (GoDirectory_clean_path_no_leak "/a/f" ["a/"; "f"]%string fs_a
              (Some 2%nat) (Live "f"%string) (after (GoDirectory "/a/f") fs_a)
              eq_refl)
    as [[? _]|(a & f & [= <-] & _ & Hh)];
    [repeat constructor; discriminate
    | apply Done_after; vm_compute; reflexivity | done |].
  by exists f.
Defined.

(** All of the twenty descriptors are bound. *)
Lemma fs_full_is_full : table_full (sysOpFileTable fs_full).
Proof.
  intros fd Hfd. cbn in Hfd.
  assert (Hcase : exists n : nat, (n < 20)%nat /\ fd = Z.of_nat n)
    by (exists (Z.to_nat fd); lia).
  destruct Hcase as (n & Hn & ->).
  do 20 (destruct n as [|n]; [vm_compute; reflexivity|]). lia.
Qed.

(** Closing descriptor 2 of the full table, the cursor at 20: the
    rounds probe 0, 1, 3, 6, 10, 15, 1, 8, 16, 5, 15, 6, 18, 11, 5, 0,
    16, 13, 11, 10, never 2. *)
Lemma Close_slot_not_regranted_witness :
  table_full (sysOpFileTable fs_full) /\
  fdPosition fs_full = 20 /\
  (forall j, (j < 20)%nat -> probe fs_full j <> 2) /\
  let s' := after (Close 2) fs_full in
  Close 2 fs_full = Done 1 s' /\
  slot_free (sysOpFileTable s') 2 = true /\
  ~ table_full (sysOpFileTable s') /\
  GetSysFd s' = Done None s' /\
  (exists s'', Open "/f" s' = Done NULL s'') /\
  (forall nms ps s'',
     Opens nms s' = Done ps s'' ->
     Forall (fun p => p = NULL) ps /\
     slot_free (sysOpFileTable s'') 2 = true /\
     GetSysFd s'' = Done None s'') /\
  result (Opens ["/f"; "/f"; "/f"]%string) s' = Some [NULL; NULL; NULL].
Proof.
  assert (Hpos : fdPosition fs_full = 20) by (vm_compute; reflexivity).
  assert (Hprobe : forall j, (j < 20)%nat -> probe fs_full j <> 2).
  { intros j Hj. unfold probe. rewrite Hpos.
    do 20 (destruct j as [|j]; [vm_compute; discriminate|]). lia. }
  split; [exact fs_full_is_full|]. split; [exact Hpos|]. split; [exact Hprobe|].
  destruct (Close_slot_not_regranted 2 fs_full)
    as (H1 & _ & _ & H2 & H3 & H4 & H5 & H6).
  - cbn. lia.
  - rewrite Hpos. lia.
  - cbn. lia.
  - vm_compute. eexists. reflexivity.
  - exact fs_full_is_full.
  - exact Hprobe.
  - intros s'. split; [exact H1|]. split; [exact H2|]. split; [exact H3|].
    split; [exact H4|]. split.
    + apply (H5 "/f"%string (after (GoDirectory "/f") (after (Close 2) fs_full))
               (Some 1%nat) "f"%string root_handle).
      * apply Done_after. vm_compute. reflexivity.
      * vm_compute. reflexivity.
      * reflexivity.
      * vm_compute. discriminate.
    + split; [exact H6|]. vm_compute. reflexivity.
Defined.

Lemma Open_full_table_witness :
  exists s', Open "/f" fs_full = Done NULL s' /\
    sysOpFileTable s' = sysOpFileTable fs_full.
Proof.
  destruct (Open_full_table "/f" fs_full (after (GoDirectory "/f") fs_full)
              (Some 1%nat) "f" root_handle)
    as (s2 & s' & _ & Hrun & _ & Ht).
  - apply Done_after; vm_compute; reflexivity.
  - vm_compute; reflexivity.
  - reflexivity.
  - vm_compute. discriminate.
  - exact fs_full_is_full.
  - cbn. lia.
  - assert (Hpos : fdPosition fs_full = 20) by (vm_compute; reflexivity).
    rewrite Hpos. lia.
  - exists s'. by split.
Defined.

(** ["/f"] exists already. *)
Lemma Create_FALSE_keeps_disk_witness :
  disk (after (Create "/f" 10) fs_f) = disk fs_f /\
  no_write fs_f (after (Create "/f" 10) fs_f).
Proof.
  apply (Create_FALSE_keeps_disk "/f" 10 fs_f).
  apply Done_after. vm_compute. reflexivity.
Defined.
